(** * neo-go-sdk: the JSON-RPC client, modelled and verified

    The development follows the Go packages of the repository:

    - [json]: the values and the decoding rules of Go's [encoding/json],
      as far as the client relies on them;
    - [request]: the JSON-RPC request envelope;
    - [response]: the response envelopes and how they are decoded;
    - the [neo] package itself: [executeRequest] and the [Client] methods.

    The network is an oracle over an abstract world state; every HTTP
    exchange the client attempts is recorded in a trace. *)

From Stdlib Require Import ZArith String Ascii List DecimalString Lia Bool.
From stdpp Require Import gmap strings list.

Set Warnings "-register-all".

Open Scope string_scope.
Open Scope Z_scope.

(** ** Go errors *)

(** The error values the client can return, by the place that creates them.
    The four [Errorf_*]/[New_*] constructors are built by the repository's own
    code; the others come from the Go libraries it calls and carry their text. *)
Inductive error : Type :=
| MarshalError (msg : string)              (* json.Marshal in request.NewBody* *)
| URLError (msg : string)                  (* http.NewRequest *)
| TransportError (msg : string)            (* http.Client.Do *)
| ReadError (msg : string)                 (* ioutil.ReadAll *)
| SyntaxError (msg : string)               (* json.Unmarshal: not JSON *)
| UnmarshalTypeError (value type_ field : string) (* json.Unmarshal: wrong shape *)
| Errorf_status (StatusCode : Z)           (* request.go, line 47 *)
| Errorf_rpc (Code : Z) (Message : string) (* request.go, line 69 *)
| Errorf_no_nodes                          (* SelectBestNode *)
| New_no_uris.                             (* NewClientUsingMultipleNodes *)

(** [fmt]'s [%d] and [%v] of an integer. *)
Definition itoa (z : Z) : string := NilZero.string_of_int (Z.to_int z).

(** The [Error()] method. *)
Definition Error_text (e : error) : string :=
  match e with
  | MarshalError msg | URLError msg | TransportError msg
  | ReadError msg | SyntaxError msg => msg
  | UnmarshalTypeError value type_ field =>
      "json: cannot unmarshal " ++ value ++ " into Go "
      ++ (if String.eqb field "" then "value" else "struct field " ++ field)
      ++ " of type " ++ type_
  | Errorf_status code =>
      "non-200 status code returned from NEO node, got: '" ++ itoa code ++ "'"
  | Errorf_rpc code message =>
      "error code: " ++ itoa code ++ ", error message: " ++ message
  | Errorf_no_nodes => "Unable to communicate with any nodes"
  | New_no_uris => "Length of 'nodeURIs' argument must be greater than 0"
  end.

(** A Go result [(T, error)] of which only one side is ever read. *)
Inductive res (T : Type) : Type :=
| OK (x : T)
| Fail (e : error).
Arguments OK {T} x.
Arguments Fail {T} e.

Definition res_bind {A B} (r : res A) (k : A -> res B) : res B :=
  match r with
  | OK x => k x
  | Fail e => Fail e
  end.

(** [strings.Contains]. *)
Fixpoint contains (sub s : string) : bool :=
  String.prefix sub s ||
  match s with
  | EmptyString => false
  | String _ rest => contains sub rest
  end.

(** ** encoding/json *)
Module json.

(** A number literal: an integer literal (no fraction, no exponent) or
    any other one, kept as text with the verdict of [strconv.ParseFloat]
    on its range. *)
Inductive number : Type :=
| Int (z : Z)
| Float (lit : string) (finite : bool).

Inductive value : Type :=
| JNull
| JBool (b : bool)
| JNumber (n : number)
| JString (s : string)
| JArray (elements : list value)
| JObject (members : list (string * value)).

(** What a Go [interface{}] holds after decoding. *)
Inductive any : Type :=
| nil_
| bool_ (b : bool)
| float64_ (n : number)
| string_ (s : string)
| slice_ (elements : list any)
| map_ (entries : gmap string any).

(** The description of a value in an [UnmarshalTypeError]. *)
Definition describe (v : value) : string :=
  match v with
  | JNull => "null"
  | JBool _ => "bool"
  | JNumber (Int z) => "number " ++ itoa z
  | JNumber (Float lit _) => "number " ++ lit
  | JString _ => "string"
  | JArray _ => "array"
  | JObject _ => "object"
  end.

(** *** Matching object keys to struct fields

    A key selects the field whose name it equals, or else the first
    field with the same folded name: ASCII letters in upper case, the
    long s (U+017F, bytes C5 BF) as S and the Kelvin sign (U+212A,
    bytes E2 84 AA) as K. *)
Definition upper (c : ascii) : ascii :=
  let n := nat_of_ascii c in
  if ((97 <=? n) && (n <=? 122))%nat then ascii_of_nat (n - 32) else c.

Definition is_byte (c : ascii) (n : nat) : bool := Nat.eqb (nat_of_ascii c) n.

Fixpoint foldName (s : string) : string :=
  match s with
  | EmptyString => EmptyString
  | String c r =>
      match r with
      | String c2 r2 =>
          if is_byte c 197 && is_byte c2 191 then String "S" (foldName r2)
          else
            match r2 with
            | String c3 r3 =>
                if is_byte c 226 && is_byte c2 132 && is_byte c3 170
                then String "K" (foldName r3)
                else String (upper c) (foldName r)
            | EmptyString => String (upper c) (foldName r)
            end
      | EmptyString => String (upper c) (foldName r)
      end
  end.

Definition field_for (fields : list string) (key : string) : option string :=
  match find (String.eqb key) fields with
  | Some f => Some f
  | None => find (fun f => String.eqb (foldName f) (foldName key)) fields
  end.

(** *** Decoding into typed destinations

    [field] names the destination for error messages: empty at the top
    level, [Struct.path] inside a struct. [null] leaves integers, strings
    and structs as they are and resets slices, maps and interfaces. *)

Definition min_int64 : Z := - 2 ^ 63.
Definition max_int64 : Z := 2 ^ 63 - 1.

Definition decode_int (type_ field : string) (v : value) (old : Z) : res Z :=
  match v with
  | JNull => OK old
  | JNumber (Int z) =>
      if (min_int64 <=? z) && (z <=? max_int64) then OK z
      else Fail (UnmarshalTypeError (describe v) type_ field)
  | _ => Fail (UnmarshalTypeError (describe v) type_ field)
  end.

Definition decode_string (field : string) (v : value) (old : string) : res string :=
  match v with
  | JNull => OK old
  | JString s => OK s
  | _ => Fail (UnmarshalTypeError (describe v) "string" field)
  end.

(** Decodes the elements of an array one after the other. *)
Fixpoint decode_elements {T} (dec : value -> res T) (vs : list value) : res (list T) :=
  match vs with
  | [] => OK []
  | v :: rest =>
      res_bind (dec v) (fun x =>
      res_bind (decode_elements dec rest) (fun xs => OK (x :: xs)))
  end.

Definition decode_string_slice (field : string) (v : value) (old : list string)
  : res (list string) :=
  match v with
  | JNull => OK []
  | JArray vs => decode_elements (fun e => decode_string field e "") vs
  | _ => Fail (UnmarshalTypeError (describe v) "[]string" field)
  end.

(** The largest integer literal that still rounds to a finite float64. *)
Definition float64_limit : Z := 2 ^ 1024 - 2 ^ 970.

Definition number_fits (n : number) : bool :=
  match n with
  | Int z => Z.abs z <? float64_limit
  | Float _ finite => finite
  end.

(** Decoding into an [interface{}]: numbers become float64, objects maps
    (a repeated key keeps its last value), arrays slices. *)
Fixpoint decode_any (field : string) (v : value) : res any :=
  match v with
  | JNull => OK nil_
  | JBool b => OK (bool_ b)
  | JNumber n =>
      if number_fits n then OK (float64_ n)
      else Fail (UnmarshalTypeError (describe v) "float64" field)
  | JString s => OK (string_ s)
  | JArray vs =>
      res_bind
        ((fix elements (l : list value) : res (list any) :=
            match l with
            | [] => OK []
            | e :: rest =>
                res_bind (decode_any field e) (fun x =>
                res_bind (elements rest) (fun xs => OK (x :: xs)))
            end) vs)
        (fun xs => OK (slice_ xs))
  | JObject ms =>
      res_bind
        ((fix entries (l : list (string * value)) (m : gmap string any)
            : res (gmap string any) :=
            match l with
            | [] => OK m
            | (k, e) :: rest =>
                res_bind (decode_any field e) (fun x => entries rest (<[k := x]> m))
            end) ms ∅)
        (fun m => OK (map_ m))
  end.

(** Decoding into a [map[string]interface{}]: the entries are added to
    the map that is already there. *)
Fixpoint decode_entries (field : string) (ms : list (string * value))
    (m : gmap string any) : res (gmap string any) :=
  match ms with
  | [] => OK m
  | (k, e) :: rest =>
      res_bind (decode_any field e) (fun x => decode_entries field rest (<[k := x]> m))
  end.

Definition decode_string_map (field : string) (v : value) (old : gmap string any)
  : res (gmap string any) :=
  match v with
  | JNull => OK ∅
  | JObject ms => decode_entries field ms old
  | _ => Fail (UnmarshalTypeError (describe v) "map[string]interface {}" field)
  end.

(** Decoding an object into a struct: the members are taken in order and
    each one is handed to [member], which knows the fields. *)
Fixpoint decode_members {S} (member : string -> value -> S -> res S)
    (ms : list (string * value)) (s : S) : res S :=
  match ms with
  | [] => OK s
  | (k, v) :: rest => res_bind (member k v s) (decode_members member rest)
  end.

Definition decode_struct {S} (type_ field : string)
    (member : string -> value -> S -> res S) (v : value) (old : S) : res S :=
  match v with
  | JNull => OK old
  | JObject ms => decode_members member ms old
  | _ => Fail (UnmarshalTypeError (describe v) type_ field)
  end.

(** A type that [json.Unmarshal] can fill: its zero value, its Go name and
    the decoding of a JSON value into a destination of that type. *)
Class Unmarshaler (T : Type) : Type := {
  zero : T;
  type_name : string;
  decode : string -> value -> T -> res T
}.

(** The body of an HTTP response as [json.Unmarshal] sees it: bytes that are
    not JSON (with the syntax error they raise), or the text of a value. *)
Inductive document : Type :=
| Malformed (why : string)
| Text (v : value).

(** [json.Unmarshal(bytes, &model)], [model] pointing to a [T]. *)
Definition Unmarshal {T} `{Unmarshaler T} (bytes : document) (model : T) : res T :=
  match bytes with
  | Malformed why => Fail (SyntaxError why)
  | Text v => decode "" v model
  end.

End json.

(** ** encoding/hex *)
Module hex.

Definition digit (n : nat) : ascii :=
  if (n <? 10)%nat then ascii_of_nat (48 + n) else ascii_of_nat (87 + n).

(** [hex.EncodeToString([]byte(s))]: two lower-case digits per byte. *)
Fixpoint EncodeToString (s : string) : string :=
  match s with
  | EmptyString => EmptyString
  | String c rest =>
      let n := nat_of_ascii c in
      String (digit (n / 16)) (String (digit (n mod 16)) (EncodeToString rest))
  end.

End hex.

(** ** Package request *)

(** A Go value handed over as a positional parameter ([interface{}]): a
    string, an integer, or anything else, given by what [json.Marshal] makes
    of it. *)
Inductive govalue : Type :=
| GoString (s : string)
| GoInt (z : Z)
| GoOther (marshalled : res json.value).

Definition Marshal (g : govalue) : res json.value :=
  match g with
  | GoString s => OK (json.JString s)
  | GoInt z => OK (json.JNumber (json.Int z))
  | GoOther r => r
  end.

Fixpoint Marshal_all (gs : list govalue) : res (list json.value) :=
  match gs with
  | [] => OK []
  | g :: rest =>
      res_bind (Marshal g) (fun v =>
      res_bind (Marshal_all rest) (fun vs => OK (v :: vs)))
  end.

Module request.

(** Modelled from the spec: the request envelope of package [request]
    (models/request), whose source is not available. The spec asks for a
    valid JSON-RPC 2.0 envelope that carries a method name and positional
    parameters; [id] is the identifier the package puts into every
    request. *)
Definition envelope (id : Z) (method : string) (params : list json.value) : json.value :=
  json.JObject
    [ ("jsonrpc", json.JString "2.0");
      ("method", json.JString method);
      ("params", json.JArray params);
      ("id", json.JNumber (json.Int id)) ].

(** Modelled from the spec: [request.NewBody], the envelope of a call
    without parameters. *)
Definition NewBody (id : Z) (method : string) : res json.value :=
  OK (envelope id method []).

(** Modelled from the spec: [request.NewBodyWithParameters], the envelope
    of a call with positional parameters; it fails when a parameter cannot
    be encoded. *)
Definition NewBodyWithParameters (id : Z) (method : string) (params : list govalue)
  : res json.value :=
  res_bind (Marshal_all params) (fun vs => OK (envelope id method vs)).

(** What JSON-RPC 2.0 asks of a request object, decided on the members of
    the body: version 2.0, a method name, an array of parameters, an
    identifier. *)
Definition member_is (ms : list (string * json.value)) (k : string)
    (p : json.value -> bool) : bool :=
  match List.filter (fun kv => String.eqb (fst kv) k) ms with
  | [(_, v)] => p v
  | _ => false
  end.

Definition is_string (s : string) (v : json.value) : bool :=
  match v with
  | json.JString s' => String.eqb s s'
  | _ => false
  end.

Definition is_array (v : json.value) : bool :=
  match v with
  | json.JArray _ => true
  | _ => false
  end.

Definition is_identifier (v : json.value) : bool :=
  match v with
  | json.JNumber (json.Int _) | json.JString _ => true
  | _ => false
  end.

Definition valid_jsonrpc2 (body : json.value) : bool :=
  match body with
  | json.JObject ms =>
      member_is ms "jsonrpc" (is_string "2.0")
      && member_is ms "method" (fun v => match v with json.JString _ => true | _ => false end)
      && member_is ms "params" is_array
      && member_is ms "id" is_identifier
  | _ => false
  end.

(** The member [k] of a request body. *)
Definition member (body : json.value) (k : string) : option json.value :=
  match body with
  | json.JObject ms => snd <$> find (fun kv => String.eqb (fst kv) k) ms
  | _ => None
  end.

End request.

(** ** Package response *)
Module response.

(** The [error] member of [response.Error]. *)
Record ErrorInfo : Type := mkErrorInfo {
  Code : Z;
  Message : string
}.

(** [response.Error]. *)
Record Error : Type := mkError {
  Error_ID : Z;
  Error_JSONRPC : string;
  Error_Error : ErrorInfo
}.

Definition ErrorInfo_member (k : string) (v : json.value) (s : ErrorInfo) : res ErrorInfo :=
  match json.field_for ["code"; "message"] k with
  | None => OK s
  | Some f =>
      if String.eqb f "code" then
        res_bind (json.decode_int "int" "Error.error.code" v (Code s))
                 (fun x => OK (mkErrorInfo x (Message s)))
      else
        res_bind (json.decode_string "Error.error.message" v (Message s))
                 (fun x => OK (mkErrorInfo (Code s) x))
  end.

Definition Error_member (k : string) (v : json.value) (s : Error) : res Error :=
  match json.field_for ["id"; "jsonrpc"; "error"] k with
  | None => OK s
  | Some f =>
      if String.eqb f "id" then
        res_bind (json.decode_int "int" "Error.id" v (Error_ID s))
                 (fun x => OK (mkError x (Error_JSONRPC s) (Error_Error s)))
      else if String.eqb f "jsonrpc" then
        res_bind (json.decode_string "Error.jsonrpc" v (Error_JSONRPC s))
                 (fun x => OK (mkError (Error_ID s) x (Error_Error s)))
      else
        res_bind (json.decode_struct "struct" "Error.error" ErrorInfo_member v (Error_Error s))
                 (fun x => OK (mkError (Error_ID s) (Error_JSONRPC s) x))
  end.

#[global] Instance Error_Unmarshaler : json.Unmarshaler Error := {|
  json.zero := mkError 0 EmptyString (mkErrorInfo 0 EmptyString);
  json.type_name := "response.Error";
  json.decode := fun _ => json.decode_struct "response.Error" EmptyString Error_member
|}.

(** The envelope of a successful call, as [response.Block] declares it:
    [ID], [JSONRPC] and a [Result] of the type of the call. [name] is the
    name of the Go struct. *)
Record Envelope (name : string) (R : Type) : Type := mkEnvelope {
  ID : Z;
  JSONRPC : string;
  Result : R
}.
Arguments mkEnvelope {name R} ID JSONRPC Result.
Arguments ID {name R} e.
Arguments JSONRPC {name R} e.
Arguments Result {name R} e.

Definition Envelope_member {name R} `{json.Unmarshaler R}
    (k : string) (v : json.value) (s : Envelope name R) : res (Envelope name R) :=
  match json.field_for ["id"; "jsonrpc"; "result"] k with
  | None => OK s
  | Some f =>
      if String.eqb f "id" then
        res_bind (json.decode_int "int" (name ++ ".id") v (ID s))
                 (fun x => OK (mkEnvelope x (JSONRPC s) (Result s)))
      else if String.eqb f "jsonrpc" then
        res_bind (json.decode_string (name ++ ".jsonrpc") v (JSONRPC s))
                 (fun x => OK (mkEnvelope (ID s) x (Result s)))
      else
        res_bind (json.decode (name ++ ".result") v (Result s))
                 (fun x => OK (mkEnvelope (ID s) (JSONRPC s) x))
  end.

#[global] Instance Envelope_Unmarshaler {name R} `{json.Unmarshaler R}
  : json.Unmarshaler (Envelope name R) := {|
  json.zero := mkEnvelope 0 EmptyString json.zero;
  json.type_name := "response." ++ name;
  json.decode := fun _ => json.decode_struct ("response." ++ name) EmptyString Envelope_member
|}.

#[global] Instance int64_Unmarshaler : json.Unmarshaler Z := {|
  json.zero := 0;
  json.type_name := "int64";
  json.decode := json.decode_int "int64"
|}.

#[global] Instance string_Unmarshaler : json.Unmarshaler string := {|
  json.zero := EmptyString;
  json.type_name := "string";
  json.decode := json.decode_string
|}.

#[global] Instance string_slice_Unmarshaler : json.Unmarshaler (list string) := {|
  json.zero := [];
  json.type_name := "[]string";
  json.decode := json.decode_string_slice
|}.

#[global] Instance string_map_Unmarshaler : json.Unmarshaler (gmap string json.any) := {|
  json.zero := ∅;
  json.type_name := "map[string]interface {}";
  json.decode := json.decode_string_map
|}.

(** Modelled from the spec: [response.Integer], [response.String],
    [response.StringArray] and [response.StringMap], declared in files that
    are not available; the spec describes them as flat records mirroring
    the result of each method (integer, string, string array, string-keyed
    map), and the client reads their [Result] at these types. *)
Definition Integer : Type := Envelope "Integer" Z.
Definition String_ : Type := Envelope "String" string.
Definition StringArray : Type := Envelope "StringArray" (list string).
Definition StringMap : Type := Envelope "StringMap" (gmap string json.any).

(** The local struct of [GetBalance] and [GetNewAddress]: an embedded
    [response.StringMap] and a [Result] of its own. For the key [result]
    the outer field wins over the embedded one, which is never filled;
    [id] and [jsonrpc] go to the embedded struct. *)
Record Shadowed (R : Type) : Type := mkShadowed {
  embedded : StringMap;
  outer_Result : R
}.
Arguments mkShadowed {R} embedded outer_Result.
Arguments embedded {R} s.
Arguments outer_Result {R} s.

Definition Shadowed_member {R} `{json.Unmarshaler R}
    (k : string) (v : json.value) (s : Shadowed R) : res (Shadowed R) :=
  match json.field_for ["result"; "id"; "jsonrpc"] k with
  | None => OK s
  | Some f =>
      if String.eqb f "result" then
        res_bind (json.decode ".result" v (outer_Result s))
                 (fun x => OK (mkShadowed (embedded s) x))
      else if String.eqb f "id" then
        res_bind (json.decode_int "int" ".id" v (ID (embedded s)))
                 (fun x => OK (mkShadowed
                                 (mkEnvelope x (JSONRPC (embedded s)) (Result (embedded s)))
                                 (outer_Result s)))
      else
        res_bind (json.decode_string ".jsonrpc" v (JSONRPC (embedded s)))
                 (fun x => OK (mkShadowed
                                 (mkEnvelope (ID (embedded s)) x (Result (embedded s)))
                                 (outer_Result s)))
  end.

#[global] Instance Shadowed_Unmarshaler {R} `{json.Unmarshaler R}
  : json.Unmarshaler (Shadowed R) := {|
  json.zero := mkShadowed json.zero json.zero;
  json.type_name := "struct";
  json.decode := fun _ => json.decode_struct "struct" EmptyString Shadowed_member
|}.

(** The struct [jd] of [GetBalance]. *)
Record jd : Type := mkjd {
  Balance : string;
  Confirmed : string
}.

Definition jd_member (k : string) (v : json.value) (s : jd) : res jd :=
  match json.field_for ["balance"; "confirmed"] k with
  | None => OK s
  | Some f =>
      if String.eqb f "balance" then
        res_bind (json.decode_string "jd.balance" v (Balance s))
                 (fun x => OK (mkjd x (Confirmed s)))
      else
        res_bind (json.decode_string "jd.confirmed" v (Confirmed s))
                 (fun x => OK (mkjd (Balance s) x))
  end.

#[global] Instance jd_Unmarshaler : json.Unmarshaler jd := {|
  json.zero := mkjd EmptyString EmptyString;
  json.type_name := "neo.jd";
  json.decode := fun field => json.decode_struct "neo.jd" field jd_member
|}.

End response.

(** ** net/http *)
Module http.

(** A request: method, URL and the JSON document it carries. *)
Record Request : Type := mkRequest {
  Method : string;
  URL : string;
  Payload : json.value
}.

(** A response: the status code, and what reading the body to its end
    gives. *)
Record Response : Type := mkResponse {
  StatusCode : Z;
  Body : res json.document
}.

End http.

(** ** Scenarios

    Small networks to run the client against: the world is the unit type,
    and a node is known by its URL and always gives the same answer. *)
Module scenario.

Definition refused : res http.Response :=
  Fail (TransportError "dial tcp: connection refused").

Definition lookup_url (table : list (string * res http.Response)) (url : string)
  : res http.Response :=
  match find (fun entry => String.eqb (fst entry) url) table with
  | Some entry => snd entry
  | None => refused
  end.

Definition network (table : list (string * res http.Response))
  : http.Request -> unit -> res http.Response * unit :=
  fun request_ w => (lookup_url table (http.URL request_), w).

(** Every URI parses. *)
Definition parses : string -> option string := fun _ => None.

Definition status (code : Z) (v : json.value) : res http.Response :=
  OK (http.mkResponse code (OK (json.Text v))).

Definition object (result_and_error : list (string * json.value)) : json.value :=
  json.JObject
    (("jsonrpc", json.JString "2.0") :: ("id", json.JNumber (json.Int 1))
     :: result_and_error).

Definition number (z : Z) : json.value := json.JNumber (json.Int z).

Definition error_member (code : Z) (message : string) : string * json.value :=
  ("error", json.JObject [("code", number code); ("message", json.JString message)]).

(** Bodies a node may send. *)
Definition method_not_found : json.value :=
  object [error_member (-32601) "Method not found"].

Definition text_result : json.value :=
  object [("result", json.JString "abc")].

Definition text_result_and_error : json.value :=
  object [("result", json.JString "abc"); error_member (-32601) "Method not found"].

Definition code_without_message : json.value :=
  object [("result", number 7); error_member (-32603) EmptyString].

Definition count (blocks : Z) : json.value :=
  object [("result", number blocks)].

Definition address : string := "AQVh2pG732YvtNaxEGkQUei3YA4cvo7d2i".

Definition valid_address : json.value :=
  object [("result", json.JObject [("address", json.JString address);
                                   ("isvalid", json.JBool true)])].

(** One node at [seed1], and two nodes at [seed1] and [seed2]. *)
Definition seed1 : string := "http://seed1.neo.org:10332".
Definition seed2 : string := "http://seed2.neo.org:10332".

Definition one_node (code : Z) (v : json.value)
  : http.Request -> unit -> res http.Response * unit :=
  network [(seed1, status code v)].

Definition two_nodes (blocks1 blocks2 : Z)
  : http.Request -> unit -> res http.Response * unit :=
  network [(seed1, status 200 (count blocks1)); (seed2, status 200 (count blocks2))].

(** No node at all: every connection is refused. *)
Definition nobody : http.Request -> unit -> res http.Response * unit := network [].

End scenario.

(** ** Package neo *)

(** [Client]: the node in use and the nodes to choose from. *)
Record Client : Type := mkClient {
  Node : string;
  nodeURIs : list string
}.

(** [NewClient]. *)
Definition NewClient (nodeURI : string) : Client :=
  mkClient nodeURI [nodeURI].

(** Type assertions with the comma-ok form, on the result of indexing a
    [map[string]interface{}] (a missing key gives the nil interface). *)
Definition assert_string (x : option json.any) : option string :=
  match x with
  | Some (json.string_ s) => Some s
  | _ => None
  end.

Definition assert_bool (x : option json.any) : option bool :=
  match x with
  | Some (json.bool_ b) => Some b
  | _ => None
  end.

Section neo.

(** *** The environment

    [World] is whatever the nodes and the network depend on.
    [RoundTrip] is the transport behind [http.Client.Do]: it answers a
    request with an error or a response, and the world moves on.
    [url_Parse] is the verdict of [net/url] on a node URI: the text of the
    error, if the URI is refused. [request_id] is the identifier package
    [request] writes into its envelopes. *)
Variable World : Type.
Variable RoundTrip : http.Request -> World -> res http.Response * World.
Variable url_Parse : string -> option string.
Variable request_id : Z.

(** The models of package [models] are not available: they are parameters,
    each with the way [encoding/json] decodes it; of a transaction the
    client reads the field [ID]. *)
Variables Block Transaction Vout : Type.
Context {Block_Unmarshaler : json.Unmarshaler Block}.
Context {Transaction_Unmarshaler : json.Unmarshaler Transaction}.
Context {Vout_Unmarshaler : json.Unmarshaler Vout}.
Variable Transaction_ID : Transaction -> string.

(** The state threaded through the client: the world, and the requests
    handed to the transport so far, oldest first. *)
Record State : Type := mkState {
  world : World;
  sent : list http.Request
}.

Definition M (A : Type) : Type := State -> A * State.

Definition ret {A} (x : A) : M A := fun st => (x, st).

Definition bind {A B} (m : M A) (k : A -> M B) : M B :=
  fun st => let (x, st') := m st in k x st'.

(** Go's [x, err := f(); if err != nil { return err }]. *)
Definition check {A B} (m : M (res A)) (k : A -> M (res B)) : M (res B) :=
  bind m (fun r => match r with
                   | OK x => k x
                   | Fail err => ret (Fail err)
                   end).

Definition pure {A} (r : res A) : M (res A) := ret r.

Notation "'let*' x ':=' m 'in' k" := (bind m (fun x => k))
  (at level 10, x name, m at level 100, k at level 200, only parsing).
Notation "'let!' x ':=' m 'in' k" := (check m (fun x => k))
  (at level 10, x name, m at level 100, k at level 200, only parsing).

(** [http.NewRequest]: fails when the URL does not parse. *)
Definition http_NewRequest (method url : string) (body : json.value) : res http.Request :=
  match url_Parse url with
  | Some why => Fail (URLError why)
  | None => OK (http.mkRequest method url body)
  end.

(** [http.Client.Do]: one exchange with the transport, recorded. *)
Definition Do (request_ : http.Request) : M (res http.Response) :=
  fun st =>
    let (answer, w) := RoundTrip request_ (world st) in
    (answer, mkState w (sent st ++ [request_])).

(** The request body: [bodyParameters] is [None] for a nil slice. *)
Definition build_body (method : string) (bodyParameters : option (list govalue))
  : res json.value :=
  match bodyParameters with
  | None => request.NewBody request_id method
  | Some ps => request.NewBodyWithParameters request_id method ps
  end.

(** [executeRequest]. The result is the error, or the model as filled by
    the response; what a failed call leaves in the model is read by no
    caller and is not kept. *)
Definition executeRequest {T} `{json.Unmarshaler T}
    (method : string) (bodyParameters : option (list govalue))
    (nodeURI : string) (model : T) : M (res T) :=
  let! body := pure (build_body method bodyParameters) in
  let! request_ := pure (http_NewRequest "POST" nodeURI body) in
  let! response_ := Do request_ in
  if negb (http.StatusCode response_ =? 200) then
    ret (Fail (Errorf_status (http.StatusCode response_)))
  else
    let! bytes := pure (http.Body response_) in
    let! model' := pure (json.Unmarshal bytes model) in
    let! errorResp := pure (json.Unmarshal bytes (json.zero : response.Error)) in
    if negb (String.eqb (response.Message (response.Error_Error errorResp)) "") then
      ret (Fail (Errorf_rpc (response.Code (response.Error_Error errorResp))
                            (response.Message (response.Error_Error errorResp))))
    else
      ret (OK model').

(** *** The client methods

    Each returns Go's pair of a value and an error ([None] is nil). *)

Definition GetBestBlockHash (c : Client) : M (string * option error) :=
  let* r := executeRequest "getbestblockhash" None (Node c) (json.zero : response.String_) in
  match r with
  | Fail err => ret (EmptyString, Some err)
  | OK resp => ret (response.Result resp, None)
  end.

Definition GetBlockByHash (c : Client) (hash : string) : M (option Block * option error) :=
  let requestBodyParams := [GoString hash; GoInt 1] in
  let* r := executeRequest "getblock" (Some requestBodyParams) (Node c)
              (json.zero : response.Envelope "Block" Block) in
  match r with
  | Fail err => ret (None, Some err)
  | OK resp => ret (Some (response.Result resp), None)
  end.

Definition GetBlockByIndex (c : Client) (index : Z) : M (option Block * option error) :=
  let requestBodyParams := [GoInt index; GoInt 1] in
  let* r := executeRequest "getblock" (Some requestBodyParams) (Node c)
              (json.zero : response.Envelope "Block" Block) in
  match r with
  | Fail err => ret (None, Some err)
  | OK resp => ret (Some (response.Result resp), None)
  end.

Definition GetBlockCount (c : Client) : M (Z * option error) :=
  let* r := executeRequest "getblockcount" None (Node c) (json.zero : response.Integer) in
  match r with
  | Fail err => ret (0, Some err)
  | OK resp => ret (response.Result resp, None)
  end.

Definition GetBlockHash (c : Client) (index : Z) : M (string * option error) :=
  let requestBodyParams := [GoInt index] in
  let* r := executeRequest "getblockhash" (Some requestBodyParams) (Node c)
              (json.zero : response.String_) in
  match r with
  | Fail err => ret (EmptyString, Some err)
  | OK resp => ret (response.Result resp, None)
  end.

Definition GetConnectionCount (c : Client) : M (Z * option error) :=
  let* r := executeRequest "getconnectioncount" None (Node c) (json.zero : response.Integer) in
  match r with
  | Fail err => ret (0, Some err)
  | OK resp => ret (response.Result resp, None)
  end.

Definition GetStorage (c : Client) (scriptHash storageKey : string)
  : M (string * option error) :=
  let requestBodyParams := [GoString scriptHash; GoString (hex.EncodeToString storageKey)] in
  let* r := executeRequest "getstorage" (Some requestBodyParams) (Node c)
              (json.zero : response.String_) in
  match r with
  | Fail err => ret (EmptyString, Some err)
  | OK resp => ret (response.Result resp, None)
  end.

Definition GetTransaction (c : Client) (hash : string)
  : M (option Transaction * option error) :=
  let requestBodyParams := [GoString hash; GoInt 1] in
  let* r := executeRequest "getrawtransaction" (Some requestBodyParams) (Node c)
              (json.zero : response.Envelope "Transaction" Transaction) in
  match r with
  | Fail err => ret (None, Some err)
  | OK resp => ret (Some (response.Result resp), None)
  end.

Definition GetTransactionOutput (c : Client) (hash : string) (index : Z)
  : M (option Vout * option error) :=
  let requestBodyParams := [GoString hash; GoInt index] in
  let* r := executeRequest "gettxout" (Some requestBodyParams) (Node c)
              (json.zero : response.Envelope "Vout" Vout) in
  match r with
  | Fail err => ret (None, Some err)
  | OK resp => ret (Some (response.Result resp), None)
  end.

Definition GetUnconfirmedTransactions (c : Client) : M (list string * option error) :=
  let* r := executeRequest "getrawmempool" None (Node c) (json.zero : response.StringArray) in
  match r with
  | Fail err => ret ([], Some err)
  | OK resp => ret (response.Result resp, None)
  end.

(** The loop of [SelectBestNode] over the remaining URIs, with the
    variables [bestNode] and [highestBlock]. *)
Fixpoint SelectBestNode_loop (uris : list string) (bestNode : string) (highestBlock : Z)
  : M (string * Z) :=
  match uris with
  | [] => ret (bestNode, highestBlock)
  | nodeURI :: rest =>
      let tempClient := NewClient nodeURI in
      let* answer := GetBlockCount tempClient in
      match answer with
      | (_, Some _) => SelectBestNode_loop rest bestNode highestBlock
      | (blockCount, None) =>
          if blockCount >? highestBlock
          then SelectBestNode_loop rest nodeURI blockCount
          else SelectBestNode_loop rest bestNode highestBlock
      end
  end.

(** [SelectBestNode], on a pointer receiver: the client comes back with
    the error. *)
Definition SelectBestNode (c : Client) : M (Client * option error) :=
  match nodeURIs c with
  | [only] => ret (mkClient only (nodeURIs c), None)
  | _ =>
      let* found := SelectBestNode_loop (nodeURIs c) EmptyString 0 in
      let bestNode := fst found in
      if String.eqb bestNode "" then ret (c, Some Errorf_no_nodes)
      else ret (mkClient bestNode (nodeURIs c), None)
  end.

(** [NewClientUsingMultipleNodes]: a nil pointer with an error, or the
    client with a nil error. *)
Definition NewClientUsingMultipleNodes (nodeURIs_ : list string)
  : M (option Client * option error) :=
  if (length nodeURIs_ =? 0)%nat then ret (None, Some New_no_uris)
  else
    let client := mkClient EmptyString nodeURIs_ in
    let* selected := SelectBestNode client in
    ret (Some (fst selected), None).

Definition ValidateAddress (c : Client) (address : string) : M (bool * option error) :=
  let requestBodyParams := [GoString address] in
  let* r := executeRequest "validateaddress" (Some requestBodyParams) (Node c)
              (json.zero : response.StringMap) in
  match r with
  | Fail err => ret (false, Some err)
  | OK resp =>
      let Result : gmap string json.any := response.Result resp in
      match Result !! "address" with
      | None => ret (false, None)
      | Some _ =>
      match assert_string (Result !! "address") with
      | None => ret (false, None)
      | Some _ =>
      match Result !! "isvalid" with
      | None => ret (false, None)
      | Some _ =>
      match assert_bool (Result !! "isvalid") with
      | None => ret (false, None)
      | Some _ =>
          let returnedAddress := default EmptyString (assert_string (Result !! "address")) in
          let valid := default false (assert_bool (Result !! "isvalid")) in
          if String.eqb address returnedAddress && valid then ret (true, None)
          else ret (false, None)
      end end end end
  end.

Definition GetBalance (c : Client) (assetID : string)
  : M (string * string * option error) :=
  let requestBodyParams := [GoString assetID] in
  let* r := executeRequest "getbalance" (Some requestBodyParams) (Node c)
              (json.zero : response.Shadowed response.jd) in
  match r with
  | Fail err => ret (EmptyString, EmptyString, Some err)
  | OK resp =>
      ret (response.Balance (response.outer_Result resp),
           response.Confirmed (response.outer_Result resp), None)
  end.

Definition GetNewAddress (c : Client) : M (string * option error) :=
  let* r := executeRequest "getnewaddress" None (Node c)
              (json.zero : response.Shadowed string) in
  match r with
  | Fail err => ret (EmptyString, Some err)
  | OK resp => ret (response.outer_Result resp, None)
  end.

Definition SendToAddress (c : Client) (assetID toAddress : string) (amount : govalue)
  : M (string * option error) :=
  let requestBodyParams := [GoString assetID; GoString toAddress; amount] in
  let* r := executeRequest "sendtoaddress" (Some requestBodyParams) (Node c)
              (json.zero : response.Envelope "Transaction" Transaction) in
  match r with
  | Fail err => ret (EmptyString, Some err)
  | OK resp => ret (Transaction_ID (response.Result resp), None)
  end.

(** *** The operations as one family

    [operation] names a method of [Client] that calls the node, with its
    arguments; [returned] is the value such a method gives back, or the
    [Result] of an envelope. *)
Inductive operation : Type :=
| CallGetBestBlockHash
| CallGetBlockByHash (hash : string)
| CallGetBlockByIndex (index : Z)
| CallGetBlockCount
| CallGetBlockHash (index : Z)
| CallGetConnectionCount
| CallGetStorage (scriptHash storageKey : string)
| CallGetTransaction (hash : string)
| CallGetTransactionOutput (hash : string) (index : Z)
| CallGetUnconfirmedTransactions
| CallValidateAddress (address : string)
| CallGetBalance (assetID : string)
| CallGetNewAddress
| CallSendToAddress (assetID toAddress : string) (amount : govalue).

Inductive returned : Type :=
| a_string (s : string)
| an_int64 (z : Z)
| a_bool (b : bool)
| a_block (b : option Block)
| a_transaction (t : option Transaction)
| a_vout (v : option Vout)
| a_string_slice (l : list string)
| a_string_map (m : gmap string json.any)
| a_balance (balance confirmed : string).

Definition invoke (op : operation) (c : Client) : M (returned * option error) :=
  match op with
  | CallGetBestBlockHash =>
      let* r := GetBestBlockHash c in ret (a_string (fst r), snd r)
  | CallGetBlockByHash hash =>
      let* r := GetBlockByHash c hash in ret (a_block (fst r), snd r)
  | CallGetBlockByIndex index =>
      let* r := GetBlockByIndex c index in ret (a_block (fst r), snd r)
  | CallGetBlockCount =>
      let* r := GetBlockCount c in ret (an_int64 (fst r), snd r)
  | CallGetBlockHash index =>
      let* r := GetBlockHash c index in ret (a_string (fst r), snd r)
  | CallGetConnectionCount =>
      let* r := GetConnectionCount c in ret (an_int64 (fst r), snd r)
  | CallGetStorage scriptHash storageKey =>
      let* r := GetStorage c scriptHash storageKey in ret (a_string (fst r), snd r)
  | CallGetTransaction hash =>
      let* r := GetTransaction c hash in ret (a_transaction (fst r), snd r)
  | CallGetTransactionOutput hash index =>
      let* r := GetTransactionOutput c hash index in ret (a_vout (fst r), snd r)
  | CallGetUnconfirmedTransactions =>
      let* r := GetUnconfirmedTransactions c in ret (a_string_slice (fst r), snd r)
  | CallValidateAddress address =>
      let* r := ValidateAddress c address in ret (a_bool (fst r), snd r)
  | CallGetBalance assetID =>
      let* r := GetBalance c assetID in
      ret (a_balance (fst (fst r)) (snd (fst r)), snd r)
  | CallGetNewAddress =>
      let* r := GetNewAddress c in ret (a_string (fst r), snd r)
  | CallSendToAddress assetID toAddress amount =>
      let* r := SendToAddress c assetID toAddress amount in ret (a_string (fst r), snd r)
  end.

(** The value a method returns beside an error. *)
Definition no_value (op : operation) : returned :=
  match op with
  | CallGetBestBlockHash | CallGetBlockHash _ | CallGetStorage _ _
  | CallGetNewAddress | CallSendToAddress _ _ _ => a_string EmptyString
  | CallGetBlockByHash _ | CallGetBlockByIndex _ => a_block None
  | CallGetBlockCount | CallGetConnectionCount => an_int64 0
  | CallGetTransaction _ => a_transaction None
  | CallGetTransactionOutput _ _ => a_vout None
  | CallGetUnconfirmedTransactions => a_string_slice []
  | CallValidateAddress _ => a_bool false
  | CallGetBalance _ => a_balance EmptyString EmptyString
  end.

(** The [result] field of the envelope an operation decodes its response
    into. *)
Definition result_field (op : operation) (bytes : json.document) : res returned :=
  match op with
  | CallGetBestBlockHash | CallGetBlockHash _ | CallGetStorage _ _ =>
      res_bind (json.Unmarshal bytes (json.zero : response.String_))
               (fun resp => OK (a_string (response.Result resp)))
  | CallGetBlockByHash _ | CallGetBlockByIndex _ =>
      res_bind (json.Unmarshal bytes (json.zero : response.Envelope "Block" Block))
               (fun resp => OK (a_block (Some (response.Result resp))))
  | CallGetBlockCount | CallGetConnectionCount =>
      res_bind (json.Unmarshal bytes (json.zero : response.Integer))
               (fun resp => OK (an_int64 (response.Result resp)))
  | CallGetTransaction _ | CallSendToAddress _ _ _ =>
      res_bind (json.Unmarshal bytes (json.zero : response.Envelope "Transaction" Transaction))
               (fun resp => OK (a_transaction (Some (response.Result resp))))
  | CallGetTransactionOutput _ _ =>
      res_bind (json.Unmarshal bytes (json.zero : response.Envelope "Vout" Vout))
               (fun resp => OK (a_vout (Some (response.Result resp))))
  | CallGetUnconfirmedTransactions =>
      res_bind (json.Unmarshal bytes (json.zero : response.StringArray))
               (fun resp => OK (a_string_slice (response.Result resp)))
  | CallValidateAddress _ =>
      res_bind (json.Unmarshal bytes (json.zero : response.StringMap))
               (fun resp => OK (a_string_map (response.Result resp)))
  | CallGetBalance _ =>
      res_bind (json.Unmarshal bytes (json.zero : response.Shadowed response.jd))
               (fun resp => OK (a_balance (response.Balance (response.outer_Result resp))
                                          (response.Confirmed (response.outer_Result resp))))
  | CallGetNewAddress =>
      res_bind (json.Unmarshal bytes (json.zero : response.Shadowed string))
               (fun resp => OK (a_string (response.outer_Result resp)))
  end.

(** The NEO RPC method an operation stands for. *)
Definition rpc_method (op : operation) : string :=
  match op with
  | CallGetBestBlockHash => "getbestblockhash"
  | CallGetBlockByHash _ | CallGetBlockByIndex _ => "getblock"
  | CallGetBlockCount => "getblockcount"
  | CallGetBlockHash _ => "getblockhash"
  | CallGetConnectionCount => "getconnectioncount"
  | CallGetStorage _ _ => "getstorage"
  | CallGetTransaction _ => "getrawtransaction"
  | CallGetTransactionOutput _ _ => "gettxout"
  | CallGetUnconfirmedTransactions => "getrawmempool"
  | CallValidateAddress _ => "validateaddress"
  | CallGetBalance _ => "getbalance"
  | CallGetNewAddress => "getnewaddress"
  | CallSendToAddress _ _ _ => "sendtoaddress"
  end.

(** The positional parameters of that method, in order; 1 asks for the
    verbose form. [None] is the nil slice of a call without parameters. *)
Definition rpc_parameters (op : operation) : option (list govalue) :=
  match op with
  | CallGetBestBlockHash | CallGetBlockCount | CallGetConnectionCount
  | CallGetUnconfirmedTransactions | CallGetNewAddress => None
  | CallGetBlockByHash hash => Some [GoString hash; GoInt 1]
  | CallGetBlockByIndex index => Some [GoInt index; GoInt 1]
  | CallGetBlockHash index => Some [GoInt index]
  | CallGetStorage scriptHash storageKey =>
      Some [GoString scriptHash; GoString (hex.EncodeToString storageKey)]
  | CallGetTransaction hash => Some [GoString hash; GoInt 1]
  | CallGetTransactionOutput hash index => Some [GoString hash; GoInt index]
  | CallValidateAddress address => Some [GoString address]
  | CallGetBalance assetID => Some [GoString assetID]
  | CallSendToAddress assetID toAddress amount =>
      Some [GoString assetID; GoString toAddress; amount]
  end.

(** The parameters of each method as they are to stand in the request, in
    JSON and in order: strings and integers as such, 1 for the verbose form,
    the storage key in hexadecimal, and the amount of [SendToAddress] as
    its own JSON encoding (no request can carry an amount that has none). *)
Definition wire_parameters (op : operation) : res (list json.value) :=
  match op with
  | CallGetBestBlockHash | CallGetBlockCount | CallGetConnectionCount
  | CallGetUnconfirmedTransactions | CallGetNewAddress => OK []
  | CallGetBlockByHash hash =>
      OK [json.JString hash; json.JNumber (json.Int 1)]
  | CallGetBlockByIndex index =>
      OK [json.JNumber (json.Int index); json.JNumber (json.Int 1)]
  | CallGetBlockHash index =>
      OK [json.JNumber (json.Int index)]
  | CallGetStorage scriptHash storageKey =>
      OK [json.JString scriptHash; json.JString (hex.EncodeToString storageKey)]
  | CallGetTransaction hash =>
      OK [json.JString hash; json.JNumber (json.Int 1)]
  | CallGetTransactionOutput hash index =>
      OK [json.JString hash; json.JNumber (json.Int index)]
  | CallValidateAddress address =>
      OK [json.JString address]
  | CallGetBalance assetID =>
      OK [json.JString assetID]
  | CallSendToAddress assetID toAddress (GoString s) =>
      OK [json.JString assetID; json.JString toAddress; json.JString s]
  | CallSendToAddress assetID toAddress (GoInt z) =>
      OK [json.JString assetID; json.JString toAddress; json.JNumber (json.Int z)]
  | CallSendToAddress assetID toAddress (GoOther (OK v)) =>
      OK [json.JString assetID; json.JString toAddress; v]
  | CallSendToAddress _ _ (GoOther (Fail e)) => Fail e
  end.

(** The operations that hand the result field on as it is. *)
Definition returns_result (op : operation) : bool :=
  match op with
  | CallValidateAddress _ | CallSendToAddress _ _ _ => false
  | _ => true
  end.

(** What [validateaddress] is expected to say of a valid address: the
    result map holds the address asked for, as a string, under [address],
    and the boolean true under [isvalid]. *)
Definition confirms (address : string) (m : gmap string json.any) : bool :=
  match m !! "address", m !! "isvalid" with
  | Some (json.string_ returnedAddress), Some (json.bool_ valid) =>
      String.eqb address returnedAddress && valid
  | _, _ => false
  end.

(** The parameters as a list: none for the nil slice. *)
Definition positional (bodyParameters : option (list govalue)) : list govalue :=
  match bodyParameters with
  | None => []
  | Some ps => ps
  end.

(** *** Asking the nodes

    [poll uris] asks each URI in turn for its block count, as the loop of
    [SelectBestNode] does, and lists the answers beside the URIs. *)
Fixpoint poll (uris : list string) : M (list (string * (Z * option error))) :=
  match uris with
  | [] => ret []
  | nodeURI :: rest =>
      let* answer := GetBlockCount (NewClient nodeURI) in
      let* answers := poll rest in
      ret ((nodeURI, answer) :: answers)
  end.

(** The request [GetBlockCount] sends to a node. *)
Definition block_count_query (nodeURI : string) : http.Request :=
  http.mkRequest "POST" nodeURI (request.envelope request_id "getblockcount" []).

(** The URIs that [net/url] accepts. *)
Definition is_url (nodeURI : string) : bool :=
  match url_Parse nodeURI with
  | None => true
  | Some _ => false
  end.

(** *** Observing an exchange

    [answered method params uri st response st']: from [st], the request
    for [method] was built and handed to the transport, which answered
    [response] and left [st']. *)
Definition answered (method : string) (bodyParameters : option (list govalue))
    (nodeURI : string) (st : State) (response_ : http.Response) (st' : State) : Prop :=
  exists body request_,
    build_body method bodyParameters = OK body /\
    http_NewRequest "POST" nodeURI body = OK request_ /\
    Do request_ st = (OK response_, st').

(** The node replied with status 200 and a body that was read in full. *)
Definition replied (method : string) (bodyParameters : option (list govalue))
    (nodeURI : string) (st : State) (bytes : json.document) (st' : State) : Prop :=
  exists response_,
    answered method bodyParameters nodeURI st response_ st' /\
    http.StatusCode response_ = 200 /\
    http.Body response_ = OK bytes.

(** The error envelope of a body, as [executeRequest] decodes it. *)
Definition error_envelope (bytes : json.document) : res response.ErrorInfo :=
  res_bind (json.Unmarshal bytes (json.zero : response.Error))
           (fun errorResp => OK (response.Error_Error errorResp)).

(** *** Ping

    [url_Host] is the host (with its port) that [net/url] reads in a URI
    that parses; [Dial] is [net.Dial] followed by the closing of the
    connection: the text of the error, if the connection is not made, and
    the world after the attempt. *)
Variable url_Host : string -> string.
Variable Dial : string -> string -> World -> option string * World.

(** [Ping]. *)
Definition Ping (c : Client) : M bool :=
  match url_Parse (Node c) with
  | Some _ => ret false
  | None =>
      fun st =>
        let (err, w) := Dial "tcp" (url_Host (Node c)) (world st) in
        match err with
        | Some _ => (false, mkState w (sent st))
        | None => (true, mkState w (sent st))
        end
  end.

(** *** The error member of a reply

    A key of a reply names the error field of [response.Error] when it is
    [error], in any case. *)
Definition names_error (key : string) : bool :=
  match json.field_for ["id"; "jsonrpc"; "error"] key with
  | Some f => String.eqb f "error"
  | None => false
  end.

(** What an operation makes of the result field of its envelope: the
    field itself, the [ID] of the transaction for [SendToAddress], the
    verdict on the map for [ValidateAddress]. *)
Definition value_of (op : operation) (result : returned) : returned :=
  match op, result with
  | CallSendToAddress _ _ _, a_transaction (Some t) => a_string (Transaction_ID t)
  | CallValidateAddress address, a_string_map m => a_bool (confirms address m)
  | _, _ => result
  end.

(** Unfolding the methods down to their call of [executeRequest]. *)
Ltac unfold_methods :=
  unfold invoke, GetBestBlockHash, GetBlockByHash, GetBlockByIndex, GetBlockCount,
    GetBlockHash, GetConnectionCount, GetStorage, GetTransaction,
    GetTransactionOutput, GetUnconfirmedTransactions, ValidateAddress, GetBalance,
    GetNewAddress, SendToAddress, bind, ret.

Ltac unfold_methods_in H :=
  unfold invoke, GetBestBlockHash, GetBlockByHash, GetBlockByIndex, GetBlockCount,
    GetBlockHash, GetConnectionCount, GetStorage, GetTransaction,
    GetTransactionOutput, GetUnconfirmedTransactions, ValidateAddress, GetBalance,
    GetNewAddress, SendToAddress, bind, ret in H.

(** *** Properties of [executeRequest] *)

Lemma prefix_app (a b : string) : String.prefix a (a ++ b) = true.
Proof.
  induction a as [|c a IH]; simpl.
  - destruct b; reflexivity.
  - destruct (ascii_dec c c); [exact IH | congruence].
Qed.

Lemma contains_prefix (sub s : string) : String.prefix sub s = true -> contains sub s = true.
Proof. intros Hp. destruct s; cbn [contains]; rewrite Hp; reflexivity. Qed.

Lemma contains_infix (a sub b : string) : contains sub (a ++ sub ++ b) = true.
Proof.
  induction a as [|c a IH].
  - change (contains sub (sub ++ b) = true). apply contains_prefix, prefix_app.
  - change (contains sub (String c (a ++ sub ++ b)) = true).
    simpl. rewrite IH. apply orb_true_r.
Qed.

Lemma string_app_assoc (a b c : string) : (a ++ b) ++ c = a ++ b ++ c.
Proof.
  induction a as [|x a IH]; [reflexivity|].
  change (String x ((a ++ b) ++ c) = String x (a ++ b ++ c)).
  rewrite IH. reflexivity.
Qed.

Lemma contains_suffix (a sub : string) : contains sub (a ++ sub) = true.
Proof.
  induction a as [|c a IH].
  - change (contains sub sub = true). apply contains_prefix.
    induction sub as [|d sub IHs]; simpl; [reflexivity|].
    destruct (ascii_dec d d); [exact IHs | congruence].
  - change (contains sub (String c (a ++ sub)) = true).
    simpl. rewrite IH. apply orb_true_r.
Qed.

Section executeRequest_facts.

Context {T : Type} {T_Unmarshaler : json.Unmarshaler T}.
Variables (method : string) (bodyParameters : option (list govalue)).
Variables (nodeURI : string) (model : T).

(** What [executeRequest] makes of a response. *)
Lemma executeRequest_answered st response_ st' :
  answered method bodyParameters nodeURI st response_ st' ->
  executeRequest method bodyParameters nodeURI model st =
  (if negb (http.StatusCode response_ =? 200)
   then Fail (Errorf_status (http.StatusCode response_))
   else
     res_bind (http.Body response_) (fun bytes =>
     res_bind (json.Unmarshal bytes model) (fun model' =>
     res_bind (json.Unmarshal bytes (json.zero : response.Error)) (fun errorResp =>
     if negb (String.eqb (response.Message (response.Error_Error errorResp)) "")
     then Fail (Errorf_rpc (response.Code (response.Error_Error errorResp))
                           (response.Message (response.Error_Error errorResp)))
     else OK model'))),
   st').
Proof.
  intros (body & request_ & Hbody & Hreq & HDo).
  unfold executeRequest, check, bind, pure, ret.
  rewrite Hbody, Hreq, HDo.
  destruct (negb (http.StatusCode response_ =? 200)); [reflexivity|].
  destruct (http.Body response_) as [bytes|e]; cbn [res_bind]; [|reflexivity].
  destruct (json.Unmarshal bytes model) as [model'|e]; cbn [res_bind]; [|reflexivity].
  destruct (json.Unmarshal bytes json.zero) as [errorResp|e]; cbn [res_bind]; [|reflexivity].
  destruct (negb _); reflexivity.
Qed.

(** Without a response, the error is that of the step that failed, and
    the transport was consulted once at most. *)
Lemma executeRequest_unanswered st :
  (forall response_ st', ~ answered method bodyParameters nodeURI st response_ st') ->
  exists e st',
    executeRequest method bodyParameters nodeURI model st = (Fail e, st') /\
    (build_body method bodyParameters = Fail e /\ st' = st \/
     (exists body,
         build_body method bodyParameters = OK body /\
         http_NewRequest "POST" nodeURI body = Fail e /\ st' = st) \/
     (exists body request_,
         build_body method bodyParameters = OK body /\
         http_NewRequest "POST" nodeURI body = OK request_ /\
         Do request_ st = (Fail e, st'))).
Proof.
  intros Hno.
  unfold executeRequest, check, bind, pure, ret.
  destruct (build_body method bodyParameters) as [body|e] eqn:Hbody.
  2:{ exists e, st. split; [reflexivity|]. left. split; reflexivity. }
  destruct (http_NewRequest "POST" nodeURI body) as [request_|e] eqn:Hreq.
  2:{ exists e, st. split; [reflexivity|]. right; left. exists body. repeat split; assumption. }
  destruct (Do request_ st) as [[response_|e] st'] eqn:HDo.
  - exfalso. apply (Hno response_ st'). exists body, request_. repeat split; assumption.
  - exists e, st'. split; [reflexivity|]. right; right. exists body, request_.
    repeat split; assumption.
Qed.

(** Success means: a response with status 200, whose body decodes into
    the model and into an envelope without an error message. *)
Lemma executeRequest_OK st model' st' :
  executeRequest method bodyParameters nodeURI model st = (OK model', st') ->
  exists bytes errorResp,
    replied method bodyParameters nodeURI st bytes st' /\
    json.Unmarshal bytes model = OK model' /\
    json.Unmarshal bytes (json.zero : response.Error) = OK errorResp /\
    response.Message (response.Error_Error errorResp) = EmptyString.
Proof.
  unfold executeRequest, check, bind, pure, ret.
  destruct (build_body method bodyParameters) as [body|e] eqn:Hbody; [|discriminate].
  destruct (http_NewRequest "POST" nodeURI body) as [request_|e] eqn:Hreq; [|discriminate].
  destruct (Do request_ st) as [[response_|e] st1] eqn:HDo; [|discriminate].
  destruct (http.StatusCode response_ =? 200) eqn:Hstatus; cbn [negb]; [|discriminate].
  destruct (http.Body response_) as [bytes|e] eqn:HBody; [|discriminate].
  destruct (json.Unmarshal bytes model) as [m|e] eqn:Hmodel; [|discriminate].
  destruct (json.Unmarshal bytes json.zero) as [errorResp|e] eqn:Herr; [|discriminate].
  destruct (String.eqb _ _) eqn:Hmsg; cbn [negb]; [|discriminate].
  intros Heq. inversion Heq; subst.
  exists bytes, errorResp. split; [|split; [exact Hmodel|split; [exact Herr|]]].
  - exists response_. split; [|split].
    + exists body, request_. repeat split; assumption.
    + apply Z.eqb_eq, Hstatus.
    + exact HBody.
  - apply String.eqb_eq, Hmsg.
Qed.

End executeRequest_facts.

Lemma executeRequest_status {T} `{json.Unmarshaler T}
    method bodyParameters nodeURI (model : T) st response_ st' :
  answered method bodyParameters nodeURI st response_ st' ->
  http.StatusCode response_ <> 200 ->
  executeRequest method bodyParameters nodeURI model st =
  (Fail (Errorf_status (http.StatusCode response_)), st').
Proof.
  intros Hans Hstatus. rewrite (executeRequest_answered _ _ _ _ _ _ _ Hans).
  apply Z.eqb_neq in Hstatus. rewrite Hstatus. reflexivity.
Qed.

Lemma executeRequest_replied {T} `{json.Unmarshaler T}
    method bodyParameters nodeURI (model : T) st bytes st' :
  replied method bodyParameters nodeURI st bytes st' ->
  executeRequest method bodyParameters nodeURI model st =
  (res_bind (json.Unmarshal bytes model) (fun model' =>
   res_bind (error_envelope bytes) (fun info =>
   if negb (String.eqb (response.Message info) "")
   then Fail (Errorf_rpc (response.Code info) (response.Message info))
   else OK model')), st').
Proof.
  intros (response_ & Hans & Hstatus & HBody).
  rewrite (executeRequest_answered _ _ _ _ _ _ _ Hans).
  rewrite Hstatus, HBody. cbn [Z.eqb Pos.eqb negb res_bind]. unfold error_envelope.
  destruct (json.Unmarshal bytes model); cbn [res_bind]; [|reflexivity].
  destruct (json.Unmarshal bytes json.zero); reflexivity.
Qed.

Lemma executeRequest_rpc_error {T} `{json.Unmarshaler T}
    method bodyParameters nodeURI (model model' : T) st bytes st' info :
  replied method bodyParameters nodeURI st bytes st' ->
  json.Unmarshal bytes model = OK model' ->
  error_envelope bytes = OK info ->
  response.Message info <> EmptyString ->
  executeRequest method bodyParameters nodeURI model st =
  (Fail (Errorf_rpc (response.Code info) (response.Message info)), st').
Proof.
  intros Hrep Hmodel Henv Hmsg. rewrite (executeRequest_replied _ _ _ _ _ _ _ Hrep).
  rewrite Hmodel, Henv. cbn [res_bind].
  apply String.eqb_neq in Hmsg. rewrite Hmsg. reflexivity.
Qed.

Lemma executeRequest_success {T} `{json.Unmarshaler T}
    method bodyParameters nodeURI (model model' : T) st bytes st' info :
  replied method bodyParameters nodeURI st bytes st' ->
  json.Unmarshal bytes model = OK model' ->
  error_envelope bytes = OK info ->
  response.Message info = EmptyString ->
  executeRequest method bodyParameters nodeURI model st = (OK model', st').
Proof.
  intros Hrep Hmodel Henv Hmsg. rewrite (executeRequest_replied _ _ _ _ _ _ _ Hrep).
  rewrite Hmodel, Henv. cbn [res_bind]. rewrite Hmsg. reflexivity.
Qed.

(** Every exchange leaves a trace of one request at most, addressed to
    the node by POST: the request is handed over as soon as its body is
    built and the URI is accepted. *)
Lemma executeRequest_sent {T} `{json.Unmarshaler T}
    method bodyParameters nodeURI (model : T) st :
  sent (snd (executeRequest method bodyParameters nodeURI model st)) =
  match build_body method bodyParameters, url_Parse nodeURI with
  | OK body, None => (sent st ++ [http.mkRequest "POST" nodeURI body])%list
  | _, _ => sent st
  end.
Proof.
  unfold executeRequest, check, bind, pure, ret, http_NewRequest.
  destruct (build_body method bodyParameters) as [body|e]; [|reflexivity].
  destruct (url_Parse nodeURI) eqn:Hurl; [reflexivity|].
  unfold Do. destruct (RoundTrip _ (world st)) as [[response_|e] w]; [|reflexivity].
  destruct (negb _); [reflexivity|].
  destruct (http.Body response_) as [bytes|e]; [|reflexivity].
  destruct (json.Unmarshal bytes model); [|reflexivity].
  destruct (json.Unmarshal bytes json.zero); [|reflexivity].
  destruct (negb _); reflexivity.
Qed.

Lemma build_body_envelope method bodyParameters :
  build_body method bodyParameters =
  res_bind (Marshal_all (positional bodyParameters))
           (fun params => OK (request.envelope request_id method params)).
Proof. destruct bodyParameters; reflexivity. Qed.

(** *** The methods, through [invoke] *)

(** A method whose exchange fails returns its zero value and the error
    of the exchange. *)
Lemma invoke_failure op c st e st' :
  (forall T (U : json.Unmarshaler T) (model : T),
      executeRequest (rpc_method op) (rpc_parameters op) (Node c) model st = (Fail e, st')) ->
  invoke op c st = ((no_value op, Some e), st').
Proof.
  intros Hfail.
  destruct op; cbn [rpc_method rpc_parameters] in Hfail; unfold_methods;
    rewrite Hfail; reflexivity.
Qed.

(** C4. For every HTTP response with a status code other than 200,
    [executeRequest] returns an error whose text reports that status code,
    whatever the model, and the operation that made the call returns the
    error beside its zero value: no result is produced. *)
Theorem non_200_status_is_an_error op c st response_ st' :
  answered (rpc_method op) (rpc_parameters op) (Node c) st response_ st' ->
  http.StatusCode response_ <> 200 ->
  let err := Errorf_status (http.StatusCode response_) in
  (forall T (U : json.Unmarshaler T) (model : T),
      executeRequest (rpc_method op) (rpc_parameters op) (Node c) model st
      = (Fail err, st')) /\
  invoke op c st = ((no_value op, Some err), st') /\
  contains (itoa (http.StatusCode response_)) (Error_text err) = true.
Proof.
  intros Hans Hstatus err.
  assert (Hexec : forall T (U : json.Unmarshaler T) (model : T),
             executeRequest (rpc_method op) (rpc_parameters op) (Node c) model st
             = (Fail err, st')).
  { intros T U model. apply executeRequest_status; assumption. }
  split; [exact Hexec|]. split.
  - apply invoke_failure, Hexec.
  - apply contains_infix.
Qed.

(** C1 (amended). For every response with status 200 whose body decodes
    into the model of the call and carries an error envelope with a
    non-empty message, [executeRequest] returns the error
    [error code: <code>, error message: <message>], whose text contains
    both the code and the message of the envelope, whatever the method,
    the parameters and the model of the call. *)
Theorem rpc_error_reports_code_and_message {T} `{json.Unmarshaler T}
    method bodyParameters nodeURI (model model' : T) st bytes st' info :
  replied method bodyParameters nodeURI st bytes st' ->
  json.Unmarshal bytes model = OK model' ->
  error_envelope bytes = OK info ->
  response.Message info <> EmptyString ->
  let err := Errorf_rpc (response.Code info) (response.Message info) in
  executeRequest method bodyParameters nodeURI model st = (Fail err, st') /\
  Error_text err
  = "error code: " ++ itoa (response.Code info)
    ++ ", error message: " ++ response.Message info /\
  contains (itoa (response.Code info)) (Error_text err) = true /\
  contains (response.Message info) (Error_text err) = true.
Proof.
  intros Hrep Hmodel Henv Hmsg err.
  split; [eapply executeRequest_rpc_error; eassumption|].
  split; [reflexivity|]. split.
  - apply contains_infix.
  - cbn [Error_text err].
    match goal with
    | |- contains ?m (?a ++ ?b ++ ?c ++ ?m) = true =>
        replace (a ++ b ++ c ++ m) with ((a ++ b ++ c) ++ m)
          by (rewrite !string_app_assoc; reflexivity)
    end.
    apply contains_suffix.
Qed.

(** C5 (amended). Whenever [executeRequest] succeeds, the response it
    processed had status 200 and its body decodes into an error envelope
    whose message is empty; the code of the envelope is not looked at. *)
Theorem success_means_empty_error_message {T} `{json.Unmarshaler T}
    method bodyParameters nodeURI (model model' : T) st st' :
  executeRequest method bodyParameters nodeURI model st = (OK model', st') ->
  exists bytes info,
    replied method bodyParameters nodeURI st bytes st' /\
    error_envelope bytes = OK info /\
    response.Message info = EmptyString.
Proof.
  intros Hexec.
  apply executeRequest_OK in Hexec as (bytes & errorResp & Hrep & _ & Herr & Hmsg).
  exists bytes, (response.Error_Error errorResp).
  split; [exact Hrep|]. split; [|exact Hmsg].
  unfold error_envelope. rewrite Herr. reflexivity.
Qed.

(** C3 (amended). [executeRequest] hands one request at most to the
    transport (no retry), and it returns an error exactly when one of its
    steps fails, the error being that of the first step that does: the
    encoding of the parameters, the construction of the request, the
    transport, a status other than 200, the reading of the body, the
    decoding of the body into the model, its decoding into the error
    envelope, or an error envelope with a non-empty message. *)
Theorem executeRequest_error_sources {T} `{json.Unmarshaler T}
    method bodyParameters nodeURI (model : T) st :
  let out := executeRequest method bodyParameters nodeURI model st in
  (exists rs, sent (snd out) = (sent st ++ rs)%list /\ (length rs <= 1)%nat) /\
  forall e, fst out = Fail e <->
    build_body method bodyParameters = Fail e \/
    (exists body,
        build_body method bodyParameters = OK body /\
        http_NewRequest "POST" nodeURI body = Fail e) \/
    (exists body request_,
        build_body method bodyParameters = OK body /\
        http_NewRequest "POST" nodeURI body = OK request_ /\
        fst (Do request_ st) = Fail e) \/
    (exists response_ st',
        answered method bodyParameters nodeURI st response_ st' /\
        http.StatusCode response_ <> 200 /\
        e = Errorf_status (http.StatusCode response_)) \/
    (exists response_ st',
        answered method bodyParameters nodeURI st response_ st' /\
        http.StatusCode response_ = 200 /\
        http.Body response_ = Fail e) \/
    (exists bytes st',
        replied method bodyParameters nodeURI st bytes st' /\
        json.Unmarshal bytes model = Fail e) \/
    (exists bytes st' model',
        replied method bodyParameters nodeURI st bytes st' /\
        json.Unmarshal bytes model = OK model' /\
        error_envelope bytes = Fail e) \/
    (exists bytes st' model' info,
        replied method bodyParameters nodeURI st bytes st' /\
        json.Unmarshal bytes model = OK model' /\
        error_envelope bytes = OK info /\
        response.Message info <> EmptyString /\
        e = Errorf_rpc (response.Code info) (response.Message info)).
Proof.
  intros out. split.
  { subst out. rewrite executeRequest_sent.
    destruct (build_body method bodyParameters) as [body|e0];
      [destruct (url_Parse nodeURI)|].
    - exists []. rewrite app_nil_r. split; [reflexivity | simpl; lia].
    - exists [http.mkRequest "POST" nodeURI body]. split; [reflexivity | simpl; lia].
    - exists []. rewrite app_nil_r. split; [reflexivity | simpl; lia]. }
  intros e. subst out. split.
  - (* the error comes from the first step that fails *)
    destruct (build_body method bodyParameters) as [body|e0] eqn:Hbody.
    2:{ unfold executeRequest, check, bind, pure, ret. rewrite Hbody.
        intros Heq. inversion Heq. left. reflexivity. }
    destruct (http_NewRequest "POST" nodeURI body) as [request_|e0] eqn:Hreq.
    2:{ unfold executeRequest, check, bind, pure, ret. rewrite Hbody, Hreq.
        intros Heq. inversion Heq. right; left. exists body. split; [reflexivity|].
        congruence. }
    destruct (Do request_ st) as [[response_|e0] st'] eqn:HDo.
    2:{ unfold executeRequest, check, bind, pure, ret. rewrite Hbody, Hreq, HDo.
        intros Heq. inversion Heq. do 2 right; left. exists body, request_.
        split; [reflexivity|]. split; [assumption|]. rewrite HDo. cbn [fst].
        f_equal. assumption. }
    assert (Hans : answered method bodyParameters nodeURI st response_ st').
    { exists body, request_. repeat split; first [assumption | congruence]. }
    destruct (Z.eq_dec (http.StatusCode response_) 200) as [Hstatus|Hstatus].
    2:{ rewrite (executeRequest_status _ _ _ _ _ _ _ Hans Hstatus).
        intros Heq. inversion Heq. do 3 right; left. exists response_, st'.
        repeat split; first [assumption | congruence]. }
    destruct (http.Body response_) as [bytes|e0] eqn:HBody.
    2:{ rewrite (executeRequest_answered _ _ _ _ _ _ _ Hans), Hstatus, HBody.
        intros Heq. inversion Heq. do 4 right; left. exists response_, st'.
        repeat split; first [assumption | congruence]. }
    assert (Hrep : replied method bodyParameters nodeURI st bytes st').
    { exists response_. repeat split; first [assumption | congruence]. }
    rewrite (executeRequest_replied _ _ _ _ _ _ _ Hrep).
    destruct (json.Unmarshal bytes model) as [model'|e0] eqn:Hmodel; cbn [res_bind fst].
    2:{ intros Heq. inversion Heq. do 5 right; left. exists bytes, st'.
        split; [exact Hrep | congruence]. }
    destruct (error_envelope bytes) as [info|e0] eqn:Henv; cbn [res_bind fst].
    2:{ intros Heq. inversion Heq. do 6 right; left. exists bytes, st', model'.
        repeat split; first [assumption | congruence]. }
    destruct (String.eqb (response.Message info) "") eqn:Hmsg; cbn [negb]; [discriminate|].
    intros Heq. inversion Heq. do 7 right. exists bytes, st', model', info.
    apply String.eqb_neq in Hmsg. repeat split; first [assumption | congruence].
  - (* each failing step gives its error *)
    intros [Hbody | [(body & Hbody & Hreq) | [(body & request_ & Hbody & Hreq & HDo)
      | [(response_ & st' & Hans & Hstatus & ->) | [(response_ & st' & Hans & Hstatus & HBody)
      | [(bytes & st' & Hrep & Hmodel) | [(bytes & st' & model' & Hrep & Hmodel & Henv)
      | (bytes & st' & model' & info & Hrep & Hmodel & Henv & Hmsg & ->)]]]]]]].
    + unfold executeRequest, check, bind, pure, ret. rewrite Hbody. reflexivity.
    + unfold executeRequest, check, bind, pure, ret. rewrite Hbody, Hreq. reflexivity.
    + unfold executeRequest, check, bind, pure, ret. rewrite Hbody, Hreq.
      destruct (Do request_ st) as [[response_|e0] st']; cbn [fst] in *; congruence.
    + rewrite (executeRequest_status _ _ _ _ _ _ _ Hans Hstatus). reflexivity.
    + rewrite (executeRequest_answered _ _ _ _ _ _ _ Hans), Hstatus, HBody. reflexivity.
    + rewrite (executeRequest_replied _ _ _ _ _ _ _ Hrep), Hmodel. reflexivity.
    + rewrite (executeRequest_replied _ _ _ _ _ _ _ Hrep), Hmodel, Henv. reflexivity.
    + rewrite (executeRequest_rpc_error _ _ _ _ _ _ _ _ _ Hrep Hmodel Henv Hmsg).
      reflexivity.
Qed.

(** [ValidateAddress], step by step: the exchange, then the verdict on
    the result map. *)
Lemma ValidateAddress_run c address st :
  ValidateAddress c address st =
  match executeRequest "validateaddress" (Some [GoString address]) (Node c)
          (json.zero : response.StringMap) st with
  | (Fail err, st') => ((false, Some err), st')
  | (OK resp, st') => ((confirms address (response.Result resp), None), st')
  end.
Proof.
  unfold ValidateAddress, bind, ret, confirms.
  destruct (executeRequest _ _ _ _ st) as [[resp|err] st']; [|reflexivity].
  destruct (response.Result resp !! "address") as [a|]; [|reflexivity].
  destruct a as [|?|?|s|?|?]; cbn [assert_string]; try reflexivity.
  destruct (response.Result resp !! "isvalid") as [i|]; [|reflexivity].
  destruct i as [|valid|?|?|?|?]; cbn [assert_bool default from_option id]; try reflexivity.
  destruct (String.eqb address s && valid)%bool; reflexivity.
Qed.

Lemma confirms_true address (m : gmap string json.any) :
  confirms address m = true <->
  m !! "address" = Some (json.string_ address) /\
  m !! "isvalid" = Some (json.bool_ true).
Proof.
  unfold confirms.
  destruct (m !! "address") as [a|]; [|split; [discriminate | intros [? _]; discriminate]].
  destruct a as [|?|?|s|?|?];
    try (split; [discriminate | intros [? _]; discriminate]).
  destruct (m !! "isvalid") as [i|]; [|split; [discriminate | intros [_ ?]; discriminate]].
  destruct i as [|valid|?|?|?|?];
    try (split; [discriminate | intros [_ ?]; discriminate]).
  rewrite andb_true_iff, String.eqb_eq. split.
  - intros [-> ->]. split; reflexivity.
  - intros [Hs Hv]. inversion Hs. inversion Hv. split; reflexivity.
Qed.

(** A method that returns no error got a reply that decodes into its
    envelope and carries no error message. *)
Lemma invoke_success op c st v st' :
  invoke op c st = ((v, None), st') ->
  exists bytes info,
    replied (rpc_method op) (rpc_parameters op) (Node c) st bytes st' /\
    error_envelope bytes = OK info /\
    response.Message info = EmptyString /\
    match op with
    | CallValidateAddress address =>
        exists m,
          result_field op bytes = OK (a_string_map m) /\
          v = a_bool (confirms address m)
    | CallSendToAddress _ _ _ =>
        exists t,
          result_field op bytes = OK (a_transaction (Some t)) /\
          v = a_string (Transaction_ID t)
    | _ => result_field op bytes = OK v
    end.
Proof.
  intros Hinv.
  destruct op;
    try (unfold invoke, bind, ret in Hinv; rewrite ValidateAddress_run in Hinv);
    unfold_methods_in Hinv;
    match type of Hinv with
    | context [executeRequest ?m ?p ?u ?z st] =>
        destruct (executeRequest m p u z st) as [[resp|e] st1] eqn:Hexec;
        [|discriminate Hinv];
        apply executeRequest_OK in Hexec as (bytes & errorResp & Hrep & Hmodel & Herr & Hmsg);
        exists bytes, (response.Error_Error errorResp);
        inversion Hinv; subst;
        (split; [exact Hrep|split; [unfold error_envelope; rewrite Herr; reflexivity|
                                    split; [exact Hmsg|]]])
    end.
  all: try (unfold result_field; rewrite Hmodel; reflexivity).
  - exists (response.Result resp). unfold result_field. rewrite Hmodel. split; reflexivity.
  - exists (response.Result resp). unfold result_field. rewrite Hmodel. split; reflexivity.
Qed.

(** C6 (amended). Every operation other than [ValidateAddress] and
    [SendToAddress] that returns without error got a reply with status
    200 whose envelope has no error message, and returns exactly the
    [result] field of that envelope, decoded at the type of the
    operation. [SendToAddress] returns the [ID] of the transaction in the
    result field, [ValidateAddress] the boolean that tells whether the
    result map confirms the address. *)
Theorem returned_value_is_result_field op c st v st' :
  invoke op c st = ((v, None), st') ->
  exists bytes info,
    replied (rpc_method op) (rpc_parameters op) (Node c) st bytes st' /\
    error_envelope bytes = OK info /\
    response.Message info = EmptyString /\
    (returns_result op = true -> result_field op bytes = OK v) /\
    (forall assetID toAddress amount,
        op = CallSendToAddress assetID toAddress amount ->
        exists t,
          result_field op bytes = OK (a_transaction (Some t)) /\
          v = a_string (Transaction_ID t)) /\
    (forall address,
        op = CallValidateAddress address ->
        exists m,
          result_field op bytes = OK (a_string_map m) /\
          v = a_bool (confirms address m)).
Proof.
  intros Hinv.
  apply invoke_success in Hinv as (bytes & info & Hrep & Henv & Hmsg & Hvalue).
  exists bytes, info. split; [exact Hrep|]. split; [exact Henv|]. split; [exact Hmsg|].
  destruct op; cbn [returns_result];
    (split; [first [discriminate | intros _; exact Hvalue] |
             split; [intros ? ? ? Heq; first [discriminate Heq | inversion Heq; subst; exact Hvalue]
                    | intros ? Heq; first [discriminate Heq | inversion Heq; subst; exact Hvalue]]]).
Qed.

(** C10. [ValidateAddress] returns (true, nil) exactly when the call to
    the node succeeds and the result map holds the queried address as a
    string under [address] and the boolean true under [isvalid]; when the
    call succeeds and one of the two keys is missing or holds a value of
    another type, it returns (false, nil), not an error. *)
Theorem ValidateAddress_verdict c address st :
  let call := executeRequest "validateaddress" (Some [GoString address]) (Node c)
                (json.zero : response.StringMap) st in
  (fst (ValidateAddress c address st) = (true, None) <->
   exists resp,
     fst call = OK resp /\
     response.Result resp !! "address" = Some (json.string_ address) /\
     response.Result resp !! "isvalid" = Some (json.bool_ true)) /\
  (forall resp,
      fst call = OK resp ->
      assert_string (response.Result resp !! "address") = None \/
      assert_bool (response.Result resp !! "isvalid") = None ->
      fst (ValidateAddress c address st) = (false, None)).
Proof.
  intros call. subst call. rewrite ValidateAddress_run.
  destruct (executeRequest _ _ _ _ st) as [[resp|err] st']; cbn [fst]; split.
  - split.
    + intros Heq. exists resp. split; [reflexivity|].
      apply confirms_true. congruence.
    + intros (resp' & Hresp & Hlookups). inversion Hresp; subst.
      apply confirms_true in Hlookups. rewrite Hlookups. reflexivity.
  - intros resp' Hresp Hbad. inversion Hresp; subst.
    unfold confirms.
    destruct Hbad as [Hbad|Hbad].
    + destruct (response.Result resp' !! "address") as [[|?|?|?|?|?]|];
        try discriminate Hbad; reflexivity.
    + destruct (response.Result resp' !! "address") as [[|?|?|?|?|?]|]; try reflexivity.
      destruct (response.Result resp' !! "isvalid") as [[|?|?|?|?|?]|];
        try discriminate Hbad; reflexivity.
  - split; [discriminate | intros (resp & Hresp & _); discriminate].
  - intros resp Hresp. discriminate.
Qed.

(** The body the client builds for an operation carries the parameters of
    [wire_parameters]. *)
Lemma build_body_wire op :
  build_body (rpc_method op) (rpc_parameters op) =
  res_bind (wire_parameters op)
           (fun params => OK (request.envelope request_id (rpc_method op) params)).
Proof.
  destruct op as [| | | | | | | | | | | | |assetID toAddress amount];
    try reflexivity.
  destruct amount as [s|z|[v|e]]; reflexivity.
Qed.

(** C7. For every operation, what is handed to the transport is one POST
    request to the node of the client, and its body is the JSON-RPC 2.0
    request object written out below: version 2.0, the method name of the
    operation, its positional parameters in order (for instance [hash, 1]
    under [getblock] for [GetBlockByHash]) and the identifier; it passes the
    check of validity. Nothing is sent when the amount of [SendToAddress]
    cannot be encoded or the URI of the node is refused. *)
Theorem request_is_jsonrpc2_envelope op c st :
  let st' := snd (invoke op c st) in
  match wire_parameters op, url_Parse (Node c) with
  | OK params, None =>
      let body :=
        json.JObject
          [("jsonrpc", json.JString "2.0");
           ("method",
            json.JString
              match op with
              | CallGetBestBlockHash => "getbestblockhash"
              | CallGetBlockByHash _ | CallGetBlockByIndex _ => "getblock"
              | CallGetBlockCount => "getblockcount"
              | CallGetBlockHash _ => "getblockhash"
              | CallGetConnectionCount => "getconnectioncount"
              | CallGetStorage _ _ => "getstorage"
              | CallGetTransaction _ => "getrawtransaction"
              | CallGetTransactionOutput _ _ => "gettxout"
              | CallGetUnconfirmedTransactions => "getrawmempool"
              | CallValidateAddress _ => "validateaddress"
              | CallGetBalance _ => "getbalance"
              | CallGetNewAddress => "getnewaddress"
              | CallSendToAddress _ _ _ => "sendtoaddress"
              end);
           ("params", json.JArray params);
           ("id", json.JNumber (json.Int request_id))] in
      sent st' = (sent st ++ [http.mkRequest "POST" (Node c) body])%list /\
      request.valid_jsonrpc2 body = true
  | _, _ => sent st' = sent st
  end.
Proof.
  intros st'.
  assert (Hsent : sent st' =
                  match build_body (rpc_method op) (rpc_parameters op), url_Parse (Node c) with
                  | OK body, None => (sent st ++ [http.mkRequest "POST" (Node c) body])%list
                  | _, _ => sent st
                  end).
  { subst st'.
    destruct op; cbn [rpc_method rpc_parameters];
      try (unfold invoke, bind, ret; rewrite ValidateAddress_run);
      unfold_methods;
      match goal with
      | |- context [executeRequest ?m ?p ?u ?z st] =>
          rewrite <- (executeRequest_sent m p u z st);
          destruct (executeRequest m p u z st) as [[resp|e] st1]; reflexivity
      end. }
  rewrite build_body_wire in Hsent.
  destruct (wire_parameters op) as [params|e]; cbn [res_bind] in Hsent; [|exact Hsent].
  destruct (url_Parse (Node c)); [exact Hsent|].
  cbn zeta. split; [|reflexivity].
  rewrite Hsent. destruct op; reflexivity.
Qed.

(** *** Choosing a node *)

Lemma GetBlockCount_sent nodeURI st :
  sent (snd (GetBlockCount (NewClient nodeURI) st)) =
  if is_url nodeURI then (sent st ++ [block_count_query nodeURI])%list else sent st.
Proof.
  unfold GetBlockCount, bind, ret, is_url, block_count_query.
  pose proof (executeRequest_sent "getblockcount" None (Node (NewClient nodeURI))
                (json.zero : response.Integer) st) as Hsent.
  cbn [build_body request.NewBody NewClient Node] in Hsent.
  destruct (executeRequest _ _ _ _ st) as [[resp|e] st1]; cbn [snd] in *;
    rewrite Hsent; cbn [NewClient Node]; destruct (url_Parse nodeURI); reflexivity.
Qed.

Lemma poll_sent uris : forall st,
  sent (snd (poll uris st)) =
  (sent st ++ map block_count_query (List.filter is_url uris))%list.
Proof.
  induction uris as [|nodeURI rest IH]; intros st.
  - simpl. rewrite app_nil_r. reflexivity.
  - cbn [poll]. unfold bind, ret.
    pose proof (GetBlockCount_sent nodeURI st) as Hone.
    destruct (GetBlockCount (NewClient nodeURI) st) as [answer st1].
    specialize (IH st1).
    destruct (poll rest st1) as [answers st2]. cbn [snd] in *.
    rewrite IH, Hone. cbn [List.filter].
    destruct (is_url nodeURI); [|reflexivity].
    cbn [map]. rewrite <- app_assoc. reflexivity.
Qed.

Lemma poll_uris uris : forall st, map fst (fst (poll uris st)) = uris.
Proof.
  induction uris as [|nodeURI rest IH]; intros st; [reflexivity|].
  cbn [poll]. unfold bind, ret.
  destruct (GetBlockCount (NewClient nodeURI) st) as [answer st1].
  specialize (IH st1). destruct (poll rest st1) as [answers st2].
  cbn [fst map] in *. rewrite IH. reflexivity.
Qed.

(** The loop and the poll ask the same nodes; what the loop keeps is the
    initial choice, or the first answer that carries the highest count,
    which then exceeds the initial one. *)
Lemma SelectBestNode_loop_spec uris : forall bestNode highestBlock st,
  let found := SelectBestNode_loop uris bestNode highestBlock st in
  let asked := poll uris st in
  snd found = snd asked /\
  highestBlock <= snd (fst found) /\
  (forall j u m, fst asked !! j = Some (u, (m, None)) -> m <= snd (fst found)) /\
  (fst found = (bestNode, highestBlock) \/
   exists i,
     fst asked !! i = Some (fst (fst found), (snd (fst found), None)) /\
     highestBlock < snd (fst found) /\
     forall j u m, (j < i)%nat -> fst asked !! j = Some (u, (m, None)) ->
                   m < snd (fst found)).
Proof.
  induction uris as [|nodeURI rest IH]; intros bestNode highestBlock st.
  - cbn. split; [reflexivity|]. split; [lia|]. split; [|left; reflexivity].
    intros j u m Hj. destruct j; discriminate Hj.
  - cbn [SelectBestNode_loop poll]. unfold bind, ret.
    destruct (GetBlockCount (NewClient nodeURI) st) as [[blockCount [err|]] st1].
    + (* the node did not answer *)
      specialize (IH bestNode highestBlock st1). cbn zeta in IH.
      destruct (SelectBestNode_loop rest bestNode highestBlock st1) as [[b h] st2].
      destruct (poll rest st1) as [answers st3]. cbn [fst snd] in *.
      destruct IH as (Hst & Hle & Hmax & Hwhich).
      split; [exact Hst|]. split; [exact Hle|]. split.
      * intros [|j] u m Hj; [discriminate Hj|]. exact (Hmax j u m Hj).
      * destruct Hwhich as [Hsame|(i & Hi & Hlt & Hearlier)]; [left; exact Hsame|].
        right. exists (S i). split; [exact Hi|]. split; [exact Hlt|].
        intros [|j] u m Hji Hj; [discriminate Hj|].
        apply (Hearlier j u m); [lia | exact Hj].
    + destruct (blockCount >? highestBlock) eqn:Hgt.
      * (* a new best node *)
        apply Z.gtb_lt in Hgt.
        specialize (IH nodeURI blockCount st1). cbn zeta in IH.
        destruct (SelectBestNode_loop rest nodeURI blockCount st1) as [[b h] st2].
        destruct (poll rest st1) as [answers st3]. cbn [fst snd] in *.
        destruct IH as (Hst & Hle & Hmax & Hwhich).
        split; [exact Hst|]. split; [lia|]. split.
        -- intros [|j] u m Hj; [inversion Hj; subst; exact Hle|]. exact (Hmax j u m Hj).
        -- right. destruct Hwhich as [Hsame|(i & Hi & Hlt & Hearlier)].
           ++ inversion Hsame; subst. exists 0%nat. split; [reflexivity|].
              split; [lia|]. intros j u m Hj. lia.
           ++ exists (S i). split; [exact Hi|]. split; [lia|].
              intros [|j] u m Hji Hj; [inversion Hj; subst; exact Hlt|].
              apply (Hearlier j u m); [lia | exact Hj].
      * (* the best node stays *)
        assert (Hle0 : blockCount <= highestBlock).
        { destruct (Z.gtb_spec blockCount highestBlock); [discriminate | lia]. }
        specialize (IH bestNode highestBlock st1). cbn zeta in IH.
        destruct (SelectBestNode_loop rest bestNode highestBlock st1) as [[b h] st2].
        destruct (poll rest st1) as [answers st3]. cbn [fst snd] in *.
        destruct IH as (Hst & Hle & Hmax & Hwhich).
        split; [exact Hst|]. split; [exact Hle|]. split.
        -- intros [|j] u m Hj; [inversion Hj; subst; lia|]. exact (Hmax j u m Hj).
        -- destruct Hwhich as [Hsame|(i & Hi & Hlt & Hearlier)]; [left; exact Hsame|].
           right. exists (S i). split; [exact Hi|]. split; [exact Hlt|].
           intros [|j] u m Hji Hj; [inversion Hj; subst; lia|].
           apply (Hearlier j u m); [lia | exact Hj].
Qed.

(** [SelectBestNode] leaves the list of URIs as it is, and a failed
    selection leaves the whole client as it is. *)
Lemma SelectBestNode_keeps c st :
  nodeURIs (fst (fst (SelectBestNode c st))) = nodeURIs c /\
  (snd (fst (SelectBestNode c st)) <> None ->
   fst (SelectBestNode c st) = (c, Some Errorf_no_nodes)).
Proof.
  unfold SelectBestNode, bind, ret.
  destruct (nodeURIs c) as [|only [|second more]] eqn:Huris.
  - destruct (SelectBestNode_loop [] EmptyString 0 st) as [found st1].
    destruct (String.eqb (fst found) ""); cbn [fst snd nodeURIs];
      split; try reflexivity; try assumption; try congruence.
  - cbn [fst snd nodeURIs]. split; [congruence | intros Habs; congruence].
  - destruct (SelectBestNode_loop _ EmptyString 0 st) as [found st1].
    destruct (String.eqb (fst found) ""); cbn [fst snd nodeURIs];
      split; try reflexivity; try assumption; try congruence.
Qed.

(** With a list that does not hold exactly one URI, [SelectBestNode] runs
    the loop from the empty choice. *)
Lemma SelectBestNode_many c st :
  length (nodeURIs c) <> 1%nat ->
  SelectBestNode c st =
  (let found := fst (SelectBestNode_loop (nodeURIs c) EmptyString 0 st) in
   if String.eqb (fst found) "" then (c, Some Errorf_no_nodes)
   else (mkClient (fst found) (nodeURIs c), None),
   snd (SelectBestNode_loop (nodeURIs c) EmptyString 0 st)).
Proof.
  intros Hlen. unfold SelectBestNode, bind, ret.
  destruct (nodeURIs c) as [|only [|second more]] eqn:Huris.
  - destruct (SelectBestNode_loop [] EmptyString 0 st) as [found st1]. cbn [fst snd].
    destruct (String.eqb (fst found) ""); reflexivity.
  - exfalso. apply Hlen. reflexivity.
  - destruct (SelectBestNode_loop _ EmptyString 0 st) as [found st1]. cbn [fst snd].
    destruct (String.eqb (fst found) ""); reflexivity.
Qed.

(** C8. [NewClientUsingMultipleNodes] returns an error if and only if the
    list of URIs is empty. For a list that is not empty it returns a
    client over that list and a nil error, whatever [SelectBestNode] says:
    when the selection fails, its error is dropped and the [Node] of the
    client is the empty string. *)
Theorem NewClientUsingMultipleNodes_fails_iff_empty uris st :
  let out := NewClientUsingMultipleNodes uris st in
  let selection := SelectBestNode (mkClient EmptyString uris) st in
  (snd (fst out) <> None <-> uris = []) /\
  (uris = [] -> out = ((None, Some New_no_uris), st)) /\
  (uris <> [] ->
   exists client,
     out = ((Some client, None), snd selection) /\
     client = fst (fst selection) /\
     nodeURIs client = uris /\
     (snd (fst selection) <> None -> Node client = EmptyString)).
Proof.
  intros out selection. subst out selection.
  unfold NewClientUsingMultipleNodes, bind, ret.
  destruct uris as [|first rest].
  - cbn. split; [split; [reflexivity | discriminate]|].
    split; [reflexivity | intros Habs; congruence].
  - cbn [length Nat.eqb].
    pose proof (SelectBestNode_keeps (mkClient EmptyString (first :: rest)) st) as [Huris Hfail].
    destruct (SelectBestNode (mkClient EmptyString (first :: rest)) st) as [[client err] st1].
    cbn [fst snd] in *.
    split; [split; [intros Habs; congruence | discriminate]|].
    split; [discriminate|]. intros _. exists client.
    split; [reflexivity|]. split; [reflexivity|]. split; [exact Huris|].
    intros Herr. specialize (Hfail Herr). inversion Hfail. reflexivity.
Qed.

Section default_transport.

(** The transport of [net/http] refuses a URL without a scheme before
    anything is sent: no node lives at the empty URI, the value
    [SelectBestNode] starts its search from. *)
Hypothesis no_scheme :
  forall request_ w,
    http.URL request_ = EmptyString ->
    exists e w', RoundTrip request_ w = (Fail e, w').

Lemma GetBlockCount_empty_url st :
  snd (fst (GetBlockCount (NewClient EmptyString) st)) <> None.
Proof.
  unfold GetBlockCount, executeRequest, check, bind, pure, ret, http_NewRequest.
  cbn [build_body request.NewBody NewClient Node].
  destruct (url_Parse "") as [why|]; [discriminate|].
  unfold Do.
  destruct (no_scheme (http.mkRequest "POST" "" (request.envelope request_id "getblockcount" []))
              (world st) eq_refl) as (e & w' & Hrefused).
  rewrite Hrefused. discriminate.
Qed.

Lemma poll_answer_has_url uris : forall st j u m,
  fst (poll uris st) !! j = Some (u, (m, None)) -> u <> EmptyString.
Proof.
  induction uris as [|nodeURI rest IH]; intros st j u m Hj.
  - destruct j; discriminate Hj.
  - cbn [poll] in Hj. unfold bind, ret in Hj.
    pose proof (GetBlockCount_empty_url st) as Hempty.
    destruct (GetBlockCount (NewClient nodeURI) st) as [answer st1] eqn:Hanswer.
    specialize (IH st1).
    destruct (poll rest st1) as [answers st2]. cbn [fst] in *.
    destruct j as [|j].
    + inversion Hj; subst. intros ->. rewrite Hanswer in Hempty.
      apply Hempty. reflexivity.
    + exact (IH j u m Hj).
Qed.

(** C2 (amended). For a list of two or more URIs (more generally, one
    that does not hold exactly one URI), [SelectBestNode] asks the URIs
    one after the other, in the order of the list, for their block
    count: one request to each URI that parses. If some node reports a
    positive block count, it sets [Node] to a URI that reported the
    highest count and returns nil; if no node can be communicated with,
    it returns an error and leaves the client as it is. *)
Theorem SelectBestNode_asks_all_and_takes_highest c st :
  length (nodeURIs c) <> 1%nat ->
  let asked := poll (nodeURIs c) st in
  let out := SelectBestNode c st in
  snd out = snd asked /\
  map fst (fst asked) = nodeURIs c /\
  sent (snd out) =
  (sent st ++ map block_count_query (List.filter is_url (nodeURIs c)))%list /\
  ((exists j u m, fst asked !! j = Some (u, (m, None)) /\ 0 < m) ->
   exists i n,
     fst out = (mkClient (Node (fst (fst out))) (nodeURIs c), None) /\
     fst asked !! i = Some (Node (fst (fst out)), (n, None)) /\
     forall j u m, fst asked !! j = Some (u, (m, None)) -> m <= n) /\
  ((forall j u m err, fst asked !! j = Some (u, (m, err)) -> err <> None) ->
   fst out = (c, Some Errorf_no_nodes)).
Proof.
  intros Hlen asked out. subst asked out.
  rewrite (SelectBestNode_many c st Hlen).
  pose proof (SelectBestNode_loop_spec (nodeURIs c) EmptyString 0 st) as Hspec.
  cbn zeta in Hspec. destruct Hspec as (Hst & Hle & Hmax & Hwhich).
  cbn [fst snd].
  split; [exact Hst|]. split; [apply poll_uris|].
  split; [rewrite Hst; apply poll_sent|].
  destruct (SelectBestNode_loop (nodeURIs c) EmptyString 0 st) as [[bestNode highest] st1].
  cbn [fst snd] in *. split.
  - intros (j & u & m & Hj & Hpos).
    pose proof (Hmax j u m Hj) as Hm.
    destruct Hwhich as [Hsame|(i & Hi & Hlt & _)]; [inversion Hsame; lia|].
    pose proof (poll_answer_has_url _ _ _ _ _ Hi) as Hurl.
    apply String.eqb_neq in Hurl. rewrite Hurl. cbn [fst Node].
    exists i, highest. split; [reflexivity|]. split; [exact Hi | exact Hmax].
  - intros Hnone.
    destruct Hwhich as [Hsame|(i & Hi & _)].
    + inversion Hsame. reflexivity.
    + exfalso. apply (Hnone _ _ _ _ Hi). reflexivity.
Qed.

(** C9. With a list that does not hold exactly one URI (two or more, in
    particular), a node that [SelectBestNode] selects reported a positive
    block count, no node reported a higher one and every node before it
    in the list reported a lower one: among the nodes that tie for the
    highest count the earliest is taken. A selection is made as soon as
    one node reports a positive count; when all the counts reported are
    0 or less, no node is selected, even if such a node is the only one
    that answers. With exactly one URI, that node is selected and
    nothing is asked. *)
Theorem SelectBestNode_choice c st :
  let asked := poll (nodeURIs c) st in
  let out := SelectBestNode c st in
  (forall only,
      nodeURIs c = [only] -> out = ((mkClient only [only], None), st)) /\
  (length (nodeURIs c) <> 1%nat ->
   (snd (fst out) = None ->
    exists i n,
      fst asked !! i = Some (Node (fst (fst out)), (n, None)) /\
      0 < n /\
      forall j u m,
        fst asked !! j = Some (u, (m, None)) ->
        m <= n /\ ((j < i)%nat -> m < n)) /\
   ((exists j u m, fst asked !! j = Some (u, (m, None)) /\ 0 < m) ->
    snd (fst out) = None) /\
   ((forall j u m, fst asked !! j = Some (u, (m, None)) -> m <= 0) ->
    fst out = (c, Some Errorf_no_nodes))).
Proof.
  intros asked out. subst asked out. split.
  { intros only Huris. unfold SelectBestNode. rewrite Huris. reflexivity. }
  intros Hlen.
  rewrite (SelectBestNode_many c st Hlen).
  pose proof (SelectBestNode_loop_spec (nodeURIs c) EmptyString 0 st) as Hspec.
  cbn zeta in Hspec. destruct Hspec as (_ & Hle & Hmax & Hwhich).
  destruct (SelectBestNode_loop (nodeURIs c) EmptyString 0 st) as [[bestNode highest] st1].
  cbn [fst snd] in *. split; [|split].
  - destruct (String.eqb bestNode "") eqn:Hbest; cbn [fst snd Node]; [discriminate|].
    intros _. apply String.eqb_neq in Hbest.
    destruct Hwhich as [Hsame|(i & Hi & Hlt & Hearlier)]; [inversion Hsame; congruence|].
    exists i, highest. split; [exact Hi|]. split; [exact Hlt|].
    intros j u m Hj. split; [exact (Hmax j u m Hj)|].
    intros Hji. exact (Hearlier j u m Hji Hj).
  - intros (j & u & m & Hj & Hpos).
    pose proof (Hmax j u m Hj) as Hm.
    destruct Hwhich as [Hsame|(i & Hi & Hlt & _)]; [inversion Hsame; lia|].
    pose proof (poll_answer_has_url _ _ _ _ _ Hi) as Hurl.
    apply String.eqb_neq in Hurl. rewrite Hurl. reflexivity.
  - intros Hlow.
    destruct Hwhich as [Hsame|(i & Hi & Hlt & _)].
    + inversion Hsame. reflexivity.
    + specialize (Hlow _ _ _ Hi). lia.
Qed.

End default_transport.

(** *** More on the operations *)

(** What an operation leaves in the trace. *)
Lemma invoke_sent op c st :
  sent (snd (invoke op c st)) =
  match build_body (rpc_method op) (rpc_parameters op), url_Parse (Node c) with
  | OK body, None => (sent st ++ [http.mkRequest "POST" (Node c) body])%list
  | _, _ => sent st
  end.
Proof.
  destruct op; cbn [rpc_method rpc_parameters];
    try (unfold invoke, bind, ret; rewrite ValidateAddress_run);
    unfold_methods;
    match goal with
    | |- context [executeRequest ?m ?p ?u ?z st] =>
        rewrite <- (executeRequest_sent m p u z st);
        destruct (executeRequest m p u z st) as [[resp|e] st1]; reflexivity
    end.
Qed.

(** An operation in terms of its exchange: the error of the exchange beside
    the zero value, or what the operation makes of the result field. *)
Lemma invoke_replied op c st bytes st' :
  replied (rpc_method op) (rpc_parameters op) (Node c) st bytes st' ->
  invoke op c st =
  (match result_field op bytes with
   | Fail e => (no_value op, Some e)
   | OK v =>
       match error_envelope bytes with
       | Fail e => (no_value op, Some e)
       | OK info =>
           if negb (String.eqb (response.Message info) "")
           then (no_value op,
                 Some (Errorf_rpc (response.Code info) (response.Message info)))
           else (value_of op v, None)
       end
   end, st').
Proof.
  intros Hrep.
  destruct op; cbn [rpc_method rpc_parameters] in Hrep;
    try (unfold invoke, bind, ret; rewrite ValidateAddress_run);
    unfold_methods; unfold result_field;
    rewrite (executeRequest_replied _ _ _ _ _ _ _ Hrep);
    (destruct (json.Unmarshal bytes json.zero) as [resp|e]; cbn [res_bind]; [|reflexivity]);
    (destruct (error_envelope bytes) as [info|e]; cbn [res_bind]; [|reflexivity]);
    destruct (negb _); reflexivity.
Qed.

(** X1. An operation that returns an error returns its zero value beside
    it: never an error together with a result. *)
Theorem error_leaves_no_value op c st e :
  snd (fst (invoke op c st)) = Some e ->
  fst (fst (invoke op c st)) = no_value op.
Proof.
  destruct op;
    try (unfold invoke, bind, ret; rewrite ValidateAddress_run);
    unfold_methods;
    match goal with
    | |- context [executeRequest ?m ?p ?u ?z st] =>
        destruct (executeRequest m p u z st) as [[resp|e0] st1]
    end; cbn [fst snd]; intros Herr; first [discriminate Herr | reflexivity].
Qed.

(** X2. The list of URIs of a client plays no part in a call: an operation
    depends on the [Node] of the client alone, so a failed call is never
    tried on another node of the list. *)
Theorem invoke_ignores_nodeURIs op node uris uris' st :
  invoke op (mkClient node uris) st = invoke op (mkClient node uris') st.
Proof. destruct op; reflexivity. Qed.


(** X7. A reply with status 200 whose body decodes into the envelope of the
    operation and carries no error message is enough for the operation to
    return without error: it returns the result field, [SendToAddress] the
    [ID] of the transaction in it and [ValidateAddress] its verdict on the
    map. *)
Theorem clean_reply_is_returned op c st bytes st' v info :
  replied (rpc_method op) (rpc_parameters op) (Node c) st bytes st' ->
  result_field op bytes = OK v ->
  error_envelope bytes = OK info ->
  response.Message info = EmptyString ->
  invoke op c st = ((value_of op v, None), st').
Proof.
  intros Hrep Hresult Henv Hmsg.
  rewrite (invoke_replied _ _ _ _ _ Hrep), Hresult, Henv, Hmsg. reflexivity.
Qed.

(** *** More on the choice of a node *)

(** X3. After a successful [SelectBestNode], the [Node] of the client is
    one of its URIs, and the list of URIs is the one it had. *)
Theorem SelectBestNode_selects_listed_node c st :
  snd (fst (SelectBestNode c st)) = None ->
  In (Node (fst (fst (SelectBestNode c st)))) (nodeURIs c) /\
  nodeURIs (fst (fst (SelectBestNode c st))) = nodeURIs c.
Proof.
  intros Hok. split; [|apply SelectBestNode_keeps].
  destruct (Nat.eq_dec (length (nodeURIs c)) 1%nat) as [Hone|Hmany].
  - unfold SelectBestNode in *.
    destruct (nodeURIs c) as [|only [|second more]]; try discriminate Hone.
    left. reflexivity.
  - rewrite (SelectBestNode_many c st Hmany) in *.
    pose proof (SelectBestNode_loop_spec (nodeURIs c) EmptyString 0 st) as Hspec.
    cbn zeta in Hspec. destruct Hspec as (_ & _ & _ & Hwhich).
    destruct (SelectBestNode_loop (nodeURIs c) EmptyString 0 st) as [[bestNode highest] st1].
    cbn [fst snd] in *.
    destruct (String.eqb bestNode "") eqn:Hbest; cbn [fst snd Node] in *; [discriminate Hok|].
    apply String.eqb_neq in Hbest.
    destruct Hwhich as [Hsame|(i & Hi & _)]; [inversion Hsame; congruence|].
    rewrite <- (poll_uris (nodeURIs c) st).
    apply list_elem_of_lookup_2, list_elem_of_In in Hi.
    apply (in_map fst) in Hi. exact Hi.
Qed.

(** X4. [SelectBestNode] has one error, [Unable to communicate with any
    nodes], whatever made the nodes fail; it then leaves the client as it
    was, and it never fails on a client with exactly one URI. *)
Theorem SelectBestNode_failure c st :
  snd (fst (SelectBestNode c st)) <> None ->
  fst (SelectBestNode c st) = (c, Some Errorf_no_nodes) /\
  length (nodeURIs c) <> 1%nat.
Proof.
  intros Herr. split; [apply SelectBestNode_keeps, Herr|].
  intros Hone. apply Herr. unfold SelectBestNode.
  destruct (nodeURIs c) as [|only [|second more]]; try discriminate Hone.
  reflexivity.
Qed.

(** X5. The client of [NewClientUsingMultipleNodes] has the given URIs, and
    its [Node] is one of them or the empty string; for a single URI it is
    the client of [NewClient], made without a request. *)
Theorem NewClientUsingMultipleNodes_node uris st :
  (forall client,
      fst (fst (NewClientUsingMultipleNodes uris st)) = Some client ->
      nodeURIs client = uris /\
      (In (Node client) uris \/ Node client = EmptyString)) /\
  (forall only,
      uris = [only] ->
      NewClientUsingMultipleNodes uris st = ((Some (NewClient only), None), st)).
Proof.
  split.
  - intros client. unfold NewClientUsingMultipleNodes, bind, ret.
    destruct uris as [|first rest]; [discriminate|]. cbn [length Nat.eqb].
    pose proof (SelectBestNode_keeps (mkClient EmptyString (first :: rest)) st)
      as [Huris Hfail].
    pose proof (SelectBestNode_selects_listed_node (mkClient EmptyString (first :: rest)) st)
      as Hlisted.
    destruct (SelectBestNode (mkClient EmptyString (first :: rest)) st) as [[chosen err] st1].
    cbn [fst snd nodeURIs] in *. intros Heq. inversion Heq; subst chosen.
    split; [exact Huris|].
    destruct err as [e|].
    + right. assert (Hne : Some e <> None) by discriminate.
      specialize (Hfail Hne). inversion Hfail. reflexivity.
    + left. apply Hlisted. reflexivity.
  - intros only ->. reflexivity.
Qed.

(** *** Ping and the calls *)

(** X8. [Ping] hands nothing to the HTTP transport, and answers false
    without dialling when the [Node] is no URL. When it answers true, the
    [Node] is a URL, so that every operation whose parameters can be
    encoded gets its request as far as the transport. *)
Theorem Ping_and_calls c st :
  sent (snd (Ping c st)) = sent st /\
  (url_Parse (Node c) <> None -> Ping c st = (false, st)) /\
  (fst (Ping c st) = true ->
   forall op params st1,
     Marshal_all (positional (rpc_parameters op)) = OK params ->
     sent (snd (invoke op c st1)) =
     (sent st1 ++ [http.mkRequest "POST" (Node c)
                     (request.envelope request_id (rpc_method op) params)])%list).
Proof.
  unfold Ping, ret. split; [|split].
  - destruct (url_Parse (Node c)); [reflexivity|].
    destruct (Dial "tcp" (url_Host (Node c)) (world st)) as [[err|] w]; reflexivity.
  - destruct (url_Parse (Node c)); [reflexivity | congruence].
  - destruct (url_Parse (Node c)) eqn:Hurl; [discriminate|].
    intros _ op params st1 Hparams.
    rewrite invoke_sent, build_body_envelope, Hparams, Hurl. reflexivity.
Qed.

(** *** The storage key *)

Lemma digit_code n : (n < 16)%nat ->
  nat_of_ascii (hex.digit n) = if (n <? 10)%nat then (48 + n)%nat else (87 + n)%nat.
Proof.
  intros Hn. unfold hex.digit.
  destruct (n <? 10)%nat; apply nat_ascii_embedding; lia.
Qed.

Lemma digit_inj n m : (n < 16)%nat -> (m < 16)%nat -> hex.digit n = hex.digit m -> n = m.
Proof.
  intros Hn Hm Heq. apply (f_equal nat_of_ascii) in Heq.
  rewrite !digit_code in Heq by assumption.
  destruct (Nat.ltb_spec n 10), (Nat.ltb_spec m 10); lia.
Qed.

Lemma two_digits_inj (c1 c2 d1 d2 : ascii) (r r' : string) :
  String c1 (String c2 r) = String d1 (String d2 r') -> c1 = d1 /\ c2 = d2 /\ r = r'.
Proof. intros Heq. inversion Heq. repeat split. Qed.

Lemma EncodeToString_inj s : forall s', hex.EncodeToString s = hex.EncodeToString s' -> s = s'.
Proof.
  induction s as [|a s IH]; intros [|b s'] Heq; try discriminate Heq; [reflexivity|].
  cbn [hex.EncodeToString] in Heq. apply two_digits_inj in Heq as (Hhigh & Hlow & Hrest).
  pose proof (nat_ascii_bounded a) as Ha. pose proof (nat_ascii_bounded b) as Hb.
  apply digit_inj in Hhigh; [|apply Nat.Div0.div_lt_upper_bound; lia ..].
  apply digit_inj in Hlow; [|apply Nat.mod_upper_bound; lia ..].
  assert (Hab : nat_of_ascii a = nat_of_ascii b).
  { rewrite (Nat.div_mod_eq (nat_of_ascii a) 16), (Nat.div_mod_eq (nat_of_ascii b) 16).
    rewrite Hhigh, Hlow. reflexivity. }
  f_equal; [|apply IH, Hrest].
  rewrite <- (ascii_nat_embedding a), <- (ascii_nat_embedding b), Hab. reflexivity.
Qed.

Lemma EncodeToString_length s :
  String.length (hex.EncodeToString s) = (2 * String.length s)%nat.
Proof. induction s as [|a s IH]; cbn [hex.EncodeToString String.length]; lia. Qed.

(** X9. [GetStorage] sends the storage key in hexadecimal, two digits for
    each byte: the parameter is twice as long as the key, and two calls
    that differ in the key differ in the request they send. *)
Theorem GetStorage_keys_stay_apart c scriptHash storageKey storageKey' st :
  url_Parse (Node c) = None ->
  sent (snd (GetStorage c scriptHash storageKey st))
  = (sent st ++ [http.mkRequest "POST" (Node c)
                   (request.envelope request_id "getstorage"
                      [json.JString scriptHash;
                       json.JString (hex.EncodeToString storageKey)])])%list /\
  String.length (hex.EncodeToString storageKey) = (2 * String.length storageKey)%nat /\
  (sent (snd (GetStorage c scriptHash storageKey st))
   = sent (snd (GetStorage c scriptHash storageKey' st)) ->
   storageKey = storageKey').
Proof.
  intros Hurl.
  assert (Hsent : forall key,
             sent (snd (GetStorage c scriptHash key st))
             = (sent st ++ [http.mkRequest "POST" (Node c)
                              (request.envelope request_id "getstorage"
                                 [json.JString scriptHash;
                                  json.JString (hex.EncodeToString key)])])%list).
  { intros key.
    pose proof (executeRequest_sent "getstorage"
                  (Some [GoString scriptHash; GoString (hex.EncodeToString key)])
                  (Node c) (json.zero : response.String_) st) as Hexec.
    rewrite Hurl in Hexec. cbn [build_body] in Hexec.
    unfold request.NewBodyWithParameters in Hexec.
    cbn [Marshal_all Marshal res_bind] in Hexec.
    rewrite <- Hexec. unfold GetStorage, bind, ret.
    destruct (executeRequest _ _ _ _ st) as [[resp|e] st1]; reflexivity. }
  split; [apply Hsent|]. split; [apply EncodeToString_length|].
  rewrite !Hsent. intros Heq.
  apply app_inv_head in Heq. injection Heq as Hkey.
  apply EncodeToString_inj, Hkey.
Qed.

(** *** Replies without an error member *)

Lemma field_for_In fields key f : json.field_for fields key = Some f -> In f fields.
Proof.
  unfold json.field_for.
  destruct (find (String.eqb key) fields) as [g|] eqn:Hexact.
  - intros Heq. inversion Heq; subst. apply (find_some _ _ Hexact).
  - intros Hfold. apply (find_some _ _ Hfold).
Qed.

Lemma Error_member_keeps key v s s' :
  (names_error key = true -> v = json.JNull) ->
  response.Error_member key v s = OK s' ->
  response.Error_Error s' = response.Error_Error s.
Proof.
  intros Hnull. unfold response.Error_member.
  pose proof (field_for_In ["id"; "jsonrpc"; "error"] key) as Hin.
  unfold names_error in Hnull.
  destruct (json.field_for ["id"; "jsonrpc"; "error"] key) as [f|];
    [|intros Heq; inversion Heq; reflexivity].
  destruct (String.eqb f "id") eqn:Hid.
  { destruct (json.decode_int _ _ v _); cbn [res_bind]; intros Heq; inversion Heq; reflexivity. }
  destruct (String.eqb f "jsonrpc") eqn:Hrpc.
  { destruct (json.decode_string _ v _); cbn [res_bind]; intros Heq; inversion Heq; reflexivity. }
  assert (Hf : f = "error").
  { apply String.eqb_neq in Hid, Hrpc.
    destruct (Hin f eq_refl) as [<-|[<-|[<-|[]]]]; congruence. }
  subst f. rewrite (Hnull eq_refl). cbn. intros Heq. inversion Heq. reflexivity.
Qed.

Lemma Error_members_keep ms : forall s s',
  Forall (fun kv => names_error (fst kv) = true -> snd kv = json.JNull) ms ->
  json.decode_members response.Error_member ms s = OK s' ->
  response.Error_Error s' = response.Error_Error s.
Proof.
  induction ms as [|[key v] rest IH]; intros s s' Hall Hdec.
  - inversion Hdec. reflexivity.
  - cbn [json.decode_members] in Hdec. inversion Hall as [|? ? Hhead Htail]; subst.
    destruct (response.Error_member key v s) as [s1|e] eqn:Hstep; [|discriminate Hdec].
    cbn [res_bind] in Hdec.
    rewrite (IH s1 s' Htail Hdec). exact (Error_member_keeps key v s s1 Hhead Hstep).
Qed.

(** X10. A reply that is an object in which the member [error] is absent
    or null is never taken for an error of the node: its error envelope is
    the zero one, and [executeRequest] succeeds as soon as the body
    decodes. *)
Theorem no_error_member_is_success {T} `{json.Unmarshaler T}
    method bodyParameters nodeURI (model model' : T) st ms st' info :
  replied method bodyParameters nodeURI st (json.Text (json.JObject ms)) st' ->
  json.Unmarshal (json.Text (json.JObject ms)) model = OK model' ->
  error_envelope (json.Text (json.JObject ms)) = OK info ->
  Forall (fun kv => names_error (fst kv) = true -> snd kv = json.JNull) ms ->
  info = response.mkErrorInfo 0 EmptyString /\
  executeRequest method bodyParameters nodeURI model st = (OK model', st').
Proof.
  intros Hrep Hmodel Henv Hall.
  assert (Hinfo : info = response.mkErrorInfo 0 EmptyString).
  { unfold error_envelope, json.Unmarshal in Henv. cbn [json.decode response.Error_Unmarshaler] in Henv.
    cbn [json.decode_struct] in Henv.
    destruct (json.decode_members response.Error_member ms json.zero) as [s'|e] eqn:Hdec;
      [|discriminate Henv].
    cbn [res_bind] in Henv. inversion Henv.
    rewrite (Error_members_keep ms _ _ Hall Hdec). reflexivity. }
  split; [exact Hinfo|].
  eapply executeRequest_success; [exact Hrep | exact Hmodel | exact Henv|].
  rewrite Hinfo. reflexivity.
Qed.

End neo.

(** ** The properties at work

    Runs of the client against the scenarios: the inputs on which a claim of
    the specification fails as it is worded, and instances of the theorems
    that carry hypotheses. *)

Abbreviation start := (mkState unit tt []).

Lemma scenario_no_scheme table :
  scenario.lookup_url table EmptyString = scenario.refused ->
  forall (request_ : http.Request) (w : unit),
    http.URL request_ = EmptyString ->
    exists e w', scenario.network table request_ w = (Fail e, w').
Proof.
  intros Htable request_ w Hurl. unfold scenario.network. rewrite Hurl, Htable.
  eexists _, _. reflexivity.
Qed.

(** C1, the claim as worded fails: the body below carries a populated error
    envelope (code -32601, message [Method not found]), and yet the error
    [executeRequest] returns to [GetBlockCount] is the decoding error of the
    result, which contains neither; the same envelope behind a status 500
    is reported as a status error, without its message. *)
Lemma populated_envelope_not_reported :
  error_envelope (json.Text scenario.text_result_and_error)
  = OK (response.mkErrorInfo (-32601) "Method not found") /\
  fst (executeRequest unit (scenario.one_node 200 scenario.text_result_and_error)
         scenario.parses 1 "getblockcount" None scenario.seed1
         (json.zero : response.Integer) start)
  = Fail (UnmarshalTypeError "string" "int64" "Integer.result") /\
  contains "Method not found"
    (Error_text (UnmarshalTypeError "string" "int64" "Integer.result")) = false /\
  contains "-32601"
    (Error_text (UnmarshalTypeError "string" "int64" "Integer.result")) = false /\
  error_envelope (json.Text scenario.method_not_found)
  = OK (response.mkErrorInfo (-32601) "Method not found") /\
  fst (executeRequest unit (scenario.one_node 500 scenario.method_not_found)
         scenario.parses 1 "getblockcount" None scenario.seed1
         (json.zero : response.Integer) start)
  = Fail (Errorf_status 500) /\
  contains "Method not found" (Error_text (Errorf_status 500)) = false.
Proof. vm_compute. repeat split. Qed.

Lemma rpc_error_reports_code_and_message_witness :
  error_envelope (json.Text scenario.method_not_found)
  = OK (response.mkErrorInfo (-32601) "Method not found") /\
  fst (executeRequest unit (scenario.one_node 200 scenario.method_not_found)
         scenario.parses 1 "getblockcount" None scenario.seed1
         (json.zero : response.Integer) start)
  = Fail (Errorf_rpc (-32601) "Method not found") /\
  Error_text (Errorf_rpc (-32601) "Method not found")
  = "error code: -32601, error message: Method not found".
Proof.
  split; [reflexivity|].
  destruct (@rpc_error_reports_code_and_message unit
              (scenario.one_node 200 scenario.method_not_found) scenario.parses 1
              response.Integer _ "getblockcount" None scenario.seed1
              json.zero (response.mkEnvelope 1 "2.0" 0) start
              (json.Text scenario.method_not_found)
              (mkState unit tt [block_count_query 1 scenario.seed1])
              (response.mkErrorInfo (-32601) "Method not found"))
    as (Hexec & Htext & _).
  - exists (http.mkResponse 200 (OK (json.Text scenario.method_not_found))).
    split; [|split; reflexivity].
    exists (request.envelope 1 "getblockcount" []), (block_count_query 1 scenario.seed1).
    repeat split.
  - reflexivity.
  - reflexivity.
  - discriminate.
  - rewrite Hexec. split; [reflexivity | exact Htext].
Defined.

(** C3, the claim as worded fails: the transport answers, the status is 200
    and the error envelope of the body is empty (code 0, no message), and
    [executeRequest] still returns an error, because the result is a string
    where [GetBlockCount] expects an integer. *)
Lemma undecodable_result_is_an_error :
  scenario.one_node 200 scenario.text_result (block_count_query 1 scenario.seed1) tt
  = (OK (http.mkResponse 200 (OK (json.Text scenario.text_result))), tt) /\
  error_envelope (json.Text scenario.text_result)
  = OK (response.mkErrorInfo 0 EmptyString) /\
  fst (executeRequest unit (scenario.one_node 200 scenario.text_result)
         scenario.parses 1 "getblockcount" None scenario.seed1
         (json.zero : response.Integer) start)
  = Fail (UnmarshalTypeError "string" "int64" "Integer.result").
Proof. vm_compute. repeat split. Qed.

Lemma non_200_status_is_an_error_witness :
  answered unit (scenario.one_node 503 scenario.method_not_found) scenario.parses 1
    "getblockcount" None scenario.seed1 start
    (http.mkResponse 503 (OK (json.Text scenario.method_not_found)))
    (mkState unit tt [block_count_query 1 scenario.seed1]) /\
  GetBlockCount unit (scenario.one_node 503 scenario.method_not_found) scenario.parses 1
    (NewClient scenario.seed1) start
  = ((0, Some (Errorf_status 503)), mkState unit tt [block_count_query 1 scenario.seed1]) /\
  Error_text (Errorf_status 503)
  = "non-200 status code returned from NEO node, got: '503'".
Proof.
  assert (Hans : answered unit (scenario.one_node 503 scenario.method_not_found)
                   scenario.parses 1 "getblockcount" None scenario.seed1 start
                   (http.mkResponse 503 (OK (json.Text scenario.method_not_found)))
                   (mkState unit tt [block_count_query 1 scenario.seed1])).
  { exists (request.envelope 1 "getblockcount" []), (block_count_query 1 scenario.seed1).
    repeat split. }
  split; [exact Hans|].
  destruct (@non_200_status_is_an_error unit
              (scenario.one_node 503 scenario.method_not_found) scenario.parses 1
              string string string _ _ _ (fun t => t)
              CallGetBlockCount (NewClient scenario.seed1) start _ _ Hans)
    as (Hexec & _ & _).
  - discriminate.
  - unfold GetBlockCount, bind, ret.
    rewrite (Hexec response.Integer _ json.zero). split; reflexivity.
Defined.

(** C5, the claim as worded fails: [executeRequest] succeeds on a body whose
    error envelope is not empty, since it carries the code -32603; only its
    message is. *)
Lemma success_with_error_code :
  fst (executeRequest unit (scenario.one_node 200 scenario.code_without_message)
         scenario.parses 1 "getblockcount" None scenario.seed1
         (json.zero : response.Integer) start)
  = OK (response.mkEnvelope 1 "2.0" 7) /\
  error_envelope (json.Text scenario.code_without_message)
  = OK (response.mkErrorInfo (-32603) EmptyString) /\
  (response.Code (response.mkErrorInfo (-32603) EmptyString) =? 0) = false.
Proof. vm_compute. repeat split. Qed.

Lemma success_means_empty_error_message_witness :
  executeRequest unit (scenario.one_node 200 (scenario.count 7))
    scenario.parses 1 "getblockcount" None scenario.seed1
    (json.zero : response.Integer) start
  = (OK (response.mkEnvelope 1 "2.0" 7), mkState unit tt [block_count_query 1 scenario.seed1]) /\
  exists bytes info,
    replied unit (scenario.one_node 200 (scenario.count 7)) scenario.parses 1
      "getblockcount" None scenario.seed1 start bytes
      (mkState unit tt [block_count_query 1 scenario.seed1]) /\
    error_envelope bytes = OK info /\
    response.Message info = EmptyString.
Proof.
  assert (Hrun : executeRequest unit (scenario.one_node 200 (scenario.count 7))
                   scenario.parses 1 "getblockcount" None scenario.seed1
                   (json.zero : response.Integer) start
                 = (OK (response.mkEnvelope 1 "2.0" 7),
                    mkState unit tt [block_count_query 1 scenario.seed1])).
  { reflexivity. }
  split; [exact Hrun|].
  exact (@success_means_empty_error_message unit _ _ _ _ _ _ _ _ _ _ _ _ Hrun).
Defined.

(** C6, the claim as worded fails: [ValidateAddress] returns without error,
    and what it returns is a boolean, while the result field of the envelope
    is the map with the entries [address] and [isvalid]. *)
Lemma ValidateAddress_returns_a_verdict :
  fst (invoke unit (scenario.one_node 200 scenario.valid_address) scenario.parses 1
         string string string (fun t => t)
         (CallValidateAddress scenario.address) (NewClient scenario.seed1) start)
  = (a_bool string string string true, None) /\
  result_field string string string (CallValidateAddress scenario.address)
    (json.Text scenario.valid_address)
  = OK (a_string_map string string string
          (<["isvalid" := json.bool_ true]>
             (<["address" := json.string_ scenario.address]> ∅))) /\
  a_bool string string string true
  <> a_string_map string string string
       (<["isvalid" := json.bool_ true]>
          (<["address" := json.string_ scenario.address]> ∅)).
Proof. split; [reflexivity|]. split; [reflexivity | discriminate]. Qed.

Lemma returned_value_is_result_field_witness :
  invoke unit (scenario.one_node 200 (scenario.count 7)) scenario.parses 1
    string string string (fun t => t) CallGetBlockCount (NewClient scenario.seed1) start
  = ((an_int64 string string string 7, None),
     mkState unit tt [block_count_query 1 scenario.seed1]) /\
  exists bytes info,
    replied unit (scenario.one_node 200 (scenario.count 7)) scenario.parses 1
      "getblockcount" None scenario.seed1 start bytes
      (mkState unit tt [block_count_query 1 scenario.seed1]) /\
    error_envelope bytes = OK info /\
    response.Message info = EmptyString /\
    result_field string string string CallGetBlockCount bytes
    = OK (an_int64 string string string 7).
Proof.
  assert (Hrun : invoke unit (scenario.one_node 200 (scenario.count 7)) scenario.parses 1
                   string string string (fun t => t) CallGetBlockCount
                   (NewClient scenario.seed1) start
                 = ((an_int64 string string string 7, None),
                    mkState unit tt [block_count_query 1 scenario.seed1])).
  { reflexivity. }
  split; [exact Hrun|].
  destruct (@returned_value_is_result_field unit _ _ _ _ _ _ _ _ _ _ _ _ _ _ _ Hrun)
    as (bytes & info & Hrep & Henv & Hmsg & Hresult & _).
  exists bytes, info. split; [exact Hrep|]. split; [exact Henv|]. split; [exact Hmsg|].
  apply Hresult. reflexivity.
Defined.

(** C2, the claim as worded fails: with a single URI, [SelectBestNode]
    selects it and returns nil without a single request, although the node
    cannot be communicated with, as [GetBlockCount] on it shows. *)
Lemma single_node_is_not_asked :
  SelectBestNode unit scenario.nobody scenario.parses 1
    (mkClient EmptyString [scenario.seed1]) start
  = ((mkClient scenario.seed1 [scenario.seed1], None), start) /\
  GetBlockCount unit scenario.nobody scenario.parses 1 (NewClient scenario.seed1) start
  = ((0, Some (TransportError "dial tcp: connection refused")),
     mkState unit tt [block_count_query 1 scenario.seed1]).
Proof. split; reflexivity. Qed.

Lemma SelectBestNode_asks_all_and_takes_highest_witness :
  (forall (request_ : http.Request) (w : unit),
      http.URL request_ = EmptyString ->
      exists e w', scenario.two_nodes 100 250 request_ w = (Fail e, w')) /\
  length [scenario.seed1; scenario.seed2] <> 1%nat /\
  sent unit (snd (SelectBestNode unit (scenario.two_nodes 100 250) scenario.parses 1
                    (mkClient EmptyString [scenario.seed1; scenario.seed2]) start))
  = [block_count_query 1 scenario.seed1; block_count_query 1 scenario.seed2] /\
  fst (SelectBestNode unit (scenario.two_nodes 100 250) scenario.parses 1
         (mkClient EmptyString [scenario.seed1; scenario.seed2]) start)
  = (mkClient scenario.seed2 [scenario.seed1; scenario.seed2], None).
Proof.
  assert (Hscheme : forall (request_ : http.Request) (w : unit),
             http.URL request_ = EmptyString ->
             exists e w', scenario.two_nodes 100 250 request_ w = (Fail e, w')).
  { apply scenario_no_scheme. reflexivity. }
  assert (Hlen : length [scenario.seed1; scenario.seed2] <> 1%nat) by discriminate.
  split; [exact Hscheme|]. split; [exact Hlen|].
  destruct (SelectBestNode_asks_all_and_takes_highest unit (scenario.two_nodes 100 250)
              scenario.parses 1 Hscheme
              (mkClient EmptyString [scenario.seed1; scenario.seed2]) start Hlen)
    as (_ & _ & Hsent & Hselected & _).
  split; [rewrite Hsent; reflexivity|].
  destruct Hselected as (i & n & Hout & _).
  - exists 1%nat, scenario.seed2, 250. split; reflexivity.
  - rewrite Hout. reflexivity.
Defined.

Lemma SelectBestNode_choice_witness :
  (forall (request_ : http.Request) (w : unit),
      http.URL request_ = EmptyString ->
      exists e w', scenario.two_nodes 250 250 request_ w = (Fail e, w')) /\
  snd (fst (SelectBestNode unit (scenario.two_nodes 250 250) scenario.parses 1
              (mkClient EmptyString [scenario.seed1; scenario.seed2]) start)) = None /\
  Node (fst (fst (SelectBestNode unit (scenario.two_nodes 250 250) scenario.parses 1
                    (mkClient EmptyString [scenario.seed1; scenario.seed2]) start)))
  = scenario.seed1 /\
  fst (SelectBestNode unit (scenario.two_nodes 0 (-1)) scenario.parses 1
         (mkClient EmptyString [scenario.seed1; scenario.seed2]) start)
  = (mkClient EmptyString [scenario.seed1; scenario.seed2], Some Errorf_no_nodes).
Proof.
  assert (Hscheme : forall blocks1 blocks2 (request_ : http.Request) (w : unit),
             http.URL request_ = EmptyString ->
             exists e w', scenario.two_nodes blocks1 blocks2 request_ w = (Fail e, w')).
  { intros blocks1 blocks2. apply scenario_no_scheme. reflexivity. }
  split; [exact (Hscheme 250 250)|].
  destruct (SelectBestNode_choice unit (scenario.two_nodes 250 250) scenario.parses 1
              (Hscheme 250 250) (mkClient EmptyString [scenario.seed1; scenario.seed2]) start)
    as (_ & Htie).
  destruct Htie as (_ & Hselects & _); [discriminate|].
  split; [apply Hselects; exists 0%nat, scenario.seed1, 250; split; reflexivity|].
  split; [reflexivity|].
  destruct (SelectBestNode_choice unit (scenario.two_nodes 0 (-1)) scenario.parses 1
              (Hscheme 0 (-1)) (mkClient EmptyString [scenario.seed1; scenario.seed2]) start)
    as (_ & Hlow).
  destruct Hlow as (_ & _ & Hnone); [discriminate|].
  apply Hnone. intros [|[|j]] u m Hj; inversion Hj; subst; discriminate.
Defined.


(** ** Further runs

    The body [GetBlockByHash] sends, the decoding of keys written in another
    case, and the encoding of a storage key. *)

Example GetBlockByHash_sends_getblock :
  sent unit (snd (GetBlockByHash unit scenario.nobody scenario.parses 1 string
                    (NewClient scenario.seed1) "0x1f" start))
  = [http.mkRequest "POST" scenario.seed1
       (json.JObject
          [("jsonrpc", json.JString "2.0");
           ("method", json.JString "getblock");
           ("params", json.JArray [json.JString "0x1f"; json.JNumber (json.Int 1)]);
           ("id", json.JNumber (json.Int 1))])].
Proof. reflexivity. Qed.

Example keys_match_without_case :
  json.Unmarshal (json.Text (json.JObject [("RESULT", scenario.number 5)]))
    (json.zero : response.Integer)
  = OK (response.mkEnvelope 0 EmptyString 5).
Proof. reflexivity. Qed.

Example storage_key_in_hex : hex.EncodeToString "key" = "6b6579".
Proof. reflexivity. Qed.


(** ** Runs for the further properties *)

Lemma error_leaves_no_value_witness :
  snd (fst (invoke unit (scenario.one_node 503 scenario.method_not_found) scenario.parses 1
              string string string (fun t => t)
              (CallGetBlockByHash "0x1f") (NewClient scenario.seed1) start))
  = Some (Errorf_status 503) /\
  fst (fst (invoke unit (scenario.one_node 503 scenario.method_not_found) scenario.parses 1
              string string string (fun t => t)
              (CallGetBlockByHash "0x1f") (NewClient scenario.seed1) start))
  = a_block string string string None.
Proof.
  assert (Herr : snd (fst (invoke unit (scenario.one_node 503 scenario.method_not_found)
                             scenario.parses 1 string string string (fun t => t)
                             (CallGetBlockByHash "0x1f") (NewClient scenario.seed1) start))
                 = Some (Errorf_status 503)) by reflexivity.
  split; [exact Herr|].
  exact (@error_leaves_no_value unit _ _ _ _ _ _ _ _ _ _ _ _ _ _ Herr).
Defined.


Lemma clean_reply_is_returned_witness :
  result_field string string string (CallValidateAddress scenario.address)
    (json.Text scenario.valid_address)
  = OK (a_string_map string string string
          (<["isvalid" := json.bool_ true]>
             (<["address" := json.string_ scenario.address]> ∅))) /\
  invoke unit (scenario.one_node 200 scenario.valid_address) scenario.parses 1
    string string string (fun t => t)
    (CallValidateAddress scenario.address) (NewClient scenario.seed1) start
  = ((a_bool string string string true, None),
     mkState unit tt
       [http.mkRequest "POST" scenario.seed1
          (request.envelope 1 "validateaddress" [json.JString scenario.address])]).
Proof.
  assert (Hresult : result_field string string string (CallValidateAddress scenario.address)
                      (json.Text scenario.valid_address)
                    = OK (a_string_map string string string
                            (<["isvalid" := json.bool_ true]>
                               (<["address" := json.string_ scenario.address]> ∅))))
    by reflexivity.
  split; [exact Hresult|].
  assert (Hrep : replied unit (scenario.one_node 200 scenario.valid_address) scenario.parses 1
                   "validateaddress" (Some [GoString scenario.address]) scenario.seed1 start
                   (json.Text scenario.valid_address)
                   (mkState unit tt
                      [http.mkRequest "POST" scenario.seed1
                         (request.envelope 1 "validateaddress"
                            [json.JString scenario.address])])).
  { exists (http.mkResponse 200 (OK (json.Text scenario.valid_address))).
    split; [|split; reflexivity].
    exists (request.envelope 1 "validateaddress" [json.JString scenario.address]),
      (http.mkRequest "POST" scenario.seed1
         (request.envelope 1 "validateaddress" [json.JString scenario.address])).
    repeat split. }
  rewrite (@clean_reply_is_returned unit (scenario.one_node 200 scenario.valid_address)
             scenario.parses 1 string string string _ _ _ (fun t => t)
             (CallValidateAddress scenario.address) (NewClient scenario.seed1) start
             _ _ _ (response.mkErrorInfo 0 EmptyString) Hrep Hresult eq_refl eq_refl).
  reflexivity.
Defined.

Lemma SelectBestNode_selects_listed_node_witness :
  snd (fst (SelectBestNode unit (scenario.two_nodes 100 250) scenario.parses 1
              (mkClient EmptyString [scenario.seed1; scenario.seed2]) start)) = None /\
  In (Node (fst (fst (SelectBestNode unit (scenario.two_nodes 100 250) scenario.parses 1
                        (mkClient EmptyString [scenario.seed1; scenario.seed2]) start))))
     [scenario.seed1; scenario.seed2] /\
  nodeURIs (fst (fst (SelectBestNode unit (scenario.two_nodes 100 250) scenario.parses 1
                        (mkClient EmptyString [scenario.seed1; scenario.seed2]) start)))
  = [scenario.seed1; scenario.seed2].
Proof.
  assert (Hok : snd (fst (SelectBestNode unit (scenario.two_nodes 100 250) scenario.parses 1
                            (mkClient EmptyString [scenario.seed1; scenario.seed2]) start))
                = None) by reflexivity.
  split; [exact Hok|].
  exact (SelectBestNode_selects_listed_node unit _ _ _ _ _ Hok).
Defined.

Lemma SelectBestNode_failure_witness :
  snd (fst (SelectBestNode unit scenario.nobody scenario.parses 1
              (mkClient scenario.seed1 [scenario.seed1; scenario.seed2]) start)) <> None /\
  fst (SelectBestNode unit scenario.nobody scenario.parses 1
         (mkClient scenario.seed1 [scenario.seed1; scenario.seed2]) start)
  = (mkClient scenario.seed1 [scenario.seed1; scenario.seed2], Some Errorf_no_nodes).
Proof.
  assert (Herr : snd (fst (SelectBestNode unit scenario.nobody scenario.parses 1
                             (mkClient scenario.seed1 [scenario.seed1; scenario.seed2]) start))
                 <> None) by (vm_compute; discriminate).
  split; [exact Herr|].
  exact (proj1 (SelectBestNode_failure unit _ _ _ _ _ Herr)).
Defined.

Lemma GetStorage_keys_stay_apart_witness :
  scenario.parses scenario.seed1 = None /\
  sent unit (snd (GetStorage unit scenario.nobody scenario.parses 1
                    (NewClient scenario.seed1) "0xd2a4" "key" start))
  = [http.mkRequest "POST" scenario.seed1
       (request.envelope 1 "getstorage" [json.JString "0xd2a4"; json.JString "6b6579"])].
Proof.
  split; [reflexivity|].
  exact (proj1 (GetStorage_keys_stay_apart unit scenario.nobody scenario.parses 1
                  (NewClient scenario.seed1) "0xd2a4" "key" "yek" start eq_refl)).
Defined.

Lemma no_error_member_is_success_witness :
  error_envelope
    (json.Text (json.JObject [("jsonrpc", json.JString "2.0"); ("id", scenario.number 1);
                              ("result", scenario.number 7); ("error", json.JNull)]))
  = OK (response.mkErrorInfo 0 EmptyString) /\
  executeRequest unit
    (scenario.one_node 200
       (json.JObject [("jsonrpc", json.JString "2.0"); ("id", scenario.number 1);
                      ("result", scenario.number 7); ("error", json.JNull)]))
    scenario.parses 1 "getblockcount" None scenario.seed1
    (json.zero : response.Integer) start
  = (OK (response.mkEnvelope 1 "2.0" 7), mkState unit tt [block_count_query 1 scenario.seed1]).
Proof.
  split; [reflexivity|].
  apply (@no_error_member_is_success unit _ scenario.parses 1 response.Integer _
           "getblockcount" None scenario.seed1 json.zero (response.mkEnvelope 1 "2.0" 7) start
           [("jsonrpc", json.JString "2.0"); ("id", scenario.number 1);
            ("result", scenario.number 7); ("error", json.JNull)]
           (mkState unit tt [block_count_query 1 scenario.seed1])
           (response.mkErrorInfo 0 EmptyString)).
  - exists (http.mkResponse 200
              (OK (json.Text (json.JObject
                                [("jsonrpc", json.JString "2.0"); ("id", scenario.number 1);
                                 ("result", scenario.number 7); ("error", json.JNull)])))).
    split; [|split; reflexivity].
    exists (request.envelope 1 "getblockcount" []), (block_count_query 1 scenario.seed1).
    repeat split.
  - reflexivity.
  - reflexivity.
  - repeat constructor; cbn; intros Hname; first [discriminate Hname | reflexivity].
Defined.
